(** * travelagent-a2a: OAuth2 client-credentials gateway and A2A executor

    A shallow embedding of [a2a_protocol/oauth2.py] and
    [a2a_protocol/executor.py], with the properties of the specification
    stated and proved over it.

    Python dictionaries are finite maps ([gmap]), Python lists are lists,
    strings are their UTF-8 encodings, dynamically typed values (JSON
    bodies, JWT claims, extracted trip attributes) are terms of [value],
    and a Python call that may raise returns an [outcome]. The external
    libraries the files call (hashlib, PyJWT, base64, Starlette's body
    parsers, the A2A task updater, the travel agent's services) are
    parameters of the sections below or are written out where their
    behaviour decides a property. *)

From stdpp Require Import gmap strings list fin_maps.
From Stdlib Require Import ZArith Ascii String.

Local Open Scope Z_scope.
Local Open Scope string_scope.

(** ** Python values and exceptions *)

#[warnings="-register-all"]
Inductive value :=
| VNone
| VBool (b : bool)
| VInt (n : Z)
| VStr (s : string)
| VList (l : list value)
| VDict (fields : list (string * value)).

(** Python truthiness: what [not v] and [if v] test. *)
Definition truthy (v : value) : bool :=
  match v with
  | VNone => false
  | VBool b => b
  | VInt n => negb (n =? 0)%Z
  | VStr s => negb (String.eqb s "")
  | VList l => match l with [] => false | _ => true end
  | VDict f => match f with [] => false | _ => true end
  end.

(** Whether a value can be used as a dictionary key. *)
Definition hashable (v : value) : bool :=
  match v with
  | VList _ | VDict _ => false
  | _ => true
  end.

Record exn := PyExn { exn_class : string; exn_msg : string }.

Inductive outcome (A : Type) :=
| Return (a : A)
| Raise (e : exn).
Arguments Return {A} a.
Arguments Raise {A} e.

Definition obind {A B} (x : outcome A) (f : A → outcome B) : outcome B :=
  match x with
  | Return a => f a
  | Raise e => Raise e
  end.

(** ** Python strings

    A [str] is represented by its UTF-8 encoding, so text in ASCII is
    itself and every other character is the two to four bytes of its
    encoding. Searching, comparing, joining and cutting at an ASCII
    character are the same on the encoding as on the characters. A
    [str] with an unpaired surrogate has no encoding: where the code
    behaves differently on one, the argument is a [py_str]. *)

Inductive py_str :=
| Text (utf8 : string)
| Unpaired (points : list N).
Coercion Text : string >-> py_str.

(** [str.isspace] on the ASCII range. *)
Definition py_isspace (c : ascii) : bool :=
  match c with
  | "009" | "010" | "011" | "012" | "013"
  | "028" | "029" | "030" | "031" | " " => true
  | _ => false
  end%char.

(** The other characters for which [str.isspace] holds, by their
    encodings: U+0085 and U+00A0 in two bytes; U+1680, U+2000 to U+200A,
    U+2028, U+2029, U+202F, U+205F and U+3000 in three. *)
Definition py_isspace2 (c d : ascii) : bool :=
  Ascii.eqb c "194" && (Ascii.eqb d "133" || Ascii.eqb d "160").

Definition py_isspace3 (c d e : ascii) : bool :=
  Ascii.eqb c "225" && Ascii.eqb d "154" && Ascii.eqb e "128"
  || Ascii.eqb c "226" && Ascii.eqb d "128"
     && ((128 <=? N_of_ascii e)%N && (N_of_ascii e <=? 138)%N
         || Ascii.eqb e "168" || Ascii.eqb e "169" || Ascii.eqb e "175")
  || Ascii.eqb c "226" && Ascii.eqb d "129" && Ascii.eqb e "159"
  || Ascii.eqb c "227" && Ascii.eqb d "128" && Ascii.eqb e "128".

(** The number of bytes of the whitespace character a string starts
    with; 0 when it starts with none. *)
Definition space_width (s : string) : nat :=
  match s with
  | String c s1 =>
      if py_isspace c then 1%nat
      else match s1 with
           | String d s2 =>
               if py_isspace2 c d then 2%nat
               else match s2 with
                    | String e _ => if py_isspace3 c d e then 3%nat else 0%nat
                    | EmptyString => 0%nat
                    end
           | EmptyString => 0%nat
           end
  | EmptyString => 0%nat
  end.

(** [s.startswith(p)] *)
Definition startswith (p s : string) : bool := String.prefix p s.

(** [s[n:]] *)
Fixpoint drop_str (n : nat) (s : string) : string :=
  match n, s with
  | O, _ => s
  | S n', String _ s' => drop_str n' s'
  | S _, EmptyString => EmptyString
  end.

(** [p in s] for strings. *)
Fixpoint contains (p s : string) : bool :=
  String.prefix p s ||
  match s with
  | EmptyString => false
  | String _ s' => contains p s'
  end.

(** [s.lstrip()] *)
Fixpoint lstrip (s : string) : string :=
  match space_width s, s with
  | 1%nat, String _ s1 => lstrip s1
  | 2%nat, String _ (String _ s2) => lstrip s2
  | 3%nat, String _ (String _ (String _ s3)) => lstrip s3
  | _, _ => s
  end.

(** [s.rstrip()]: a character stays unless whitespace is all that
    follows from it on. *)
Fixpoint rstrip (s : string) : string :=
  match s with
  | String c s1 =>
      if String.eqb (lstrip s) "" then EmptyString else String c (rstrip s1)
  | EmptyString => EmptyString
  end.

(** [s.strip()] *)
Definition strip (s : string) : string := rstrip (lstrip s).

(** [sep.join(l)] *)
Definition join (sep : string) (l : list string) : string :=
  String.concat sep l.

(** [s.split()]: maximal runs of non-whitespace characters. [cur] is
    the run being read, last byte first. *)
Fixpoint split_go (cur : option string) (s : string) : list string :=
  match s with
  | EmptyString => option_list (String.rev <$> cur)
  | String c s1 =>
      match space_width s, s1 with
      | 0%nat, _ => split_go (Some (String c (default EmptyString cur))) s1
      | 1%nat, _ => option_list (String.rev <$> cur) ++ split_go None s1
      | 2%nat, String _ s2 => option_list (String.rev <$> cur) ++ split_go None s2
      | 3%nat, String _ (String _ s3) =>
          option_list (String.rev <$> cur) ++ split_go None s3
      | _, _ => option_list (String.rev <$> cur)
      end
  end.
Definition split (s : string) : list string := split_go None s.

(** [s.split(":", 1)] unpacked into two names: [None] stands for the
    [ValueError] of unpacking a one-element list. *)
Fixpoint split_colon (s : string) : option (string * string) :=
  match s with
  | EmptyString => None
  | String c s' =>
      if Ascii.eqb c ":"%char then Some (EmptyString, s')
      else match split_colon s' with
           | Some (a, b) => Some (String c a, b)
           | None => None
           end
  end.

(** [dict(pairs)]: a later binding of a key replaces an earlier one. *)
Definition dict_of {A} (pairs : list (string * A)) : gmap string A :=
  list_to_map (reverse pairs).

(** [d.get(k)] with Python's default [None]. *)
Definition dict_get (k : string) (d : gmap string value) : value :=
  default VNone (d !! k).

(** [d.get(k, dflt)] *)
Definition dict_get_default (k : string) (dflt : value) (d : gmap string value) : value :=
  default dflt (d !! k).

(** Each whitespace character beyond ASCII, stripped to nothing. *)
Example isspace_table :
  forallb (λ t, String.eqb (strip t) "")
    [ String "194" (String "133" ""); String "194" (String "160" "");
      String "225" (String "154" (String "128" ""));
      String "226" (String "128" (String "128" ""));
      String "226" (String "128" (String "138" ""));
      String "226" (String "128" (String "168" ""));
      String "226" (String "128" (String "169" ""));
      String "226" (String "128" (String "175" ""));
      String "226" (String "129" (String "159" ""));
      String "227" (String "128" (String "128" "")) ] = true
  ∧ forallb (λ t, String.eqb (strip t) t)
    [ String "194" (String "161" "");
      String "226" (String "128" (String "139" ""));
      String "226" (String "128" (String "160" ""));
      String "160" ""; String "133" "" ] = true.
Proof. split; reflexivity. Qed.

(** U+00A0 and U+2003. *)
Definition nbsp : string := String "194" (String "160" EmptyString).
Definition em_space : string :=
  String "226" (String "128" (String "131" EmptyString)).

Example strip_ex : strip "  hi there " = "hi there".
Proof. reflexivity. Qed.
Example strip_nbsp_ex : strip (nbsp +:+ " hello" +:+ em_space +:+ nbsp) = "hello".
Proof. reflexivity. Qed.
Example split_ex : split " a2a:travel-agent  admin " = ["a2a:travel-agent"; "admin"].
Proof. reflexivity. Qed.
Example split_nbsp_ex : split ("read" +:+ nbsp +:+ "write") = ["read"; "write"].
Proof. reflexivity. Qed.
Example split_colon_ex : split_colon "acme:s3:cr3t" = Some ("acme", "s3:cr3t").
Proof. reflexivity. Qed.
Example dict_of_ex : dict_of [("a", 1%Z); ("b", 2%Z); ("a", 3%Z)] !! "a" = Some 3%Z.
Proof. reflexivity. Qed.

(** *** Whitespace at the ends of a string *)

Lemma append_cons (c : ascii) (s t : string) :
  String c s +:+ t = String c (s +:+ t).
Proof. reflexivity. Qed.

Lemma append_nil_r (s : string) : s +:+ "" = s.
Proof. induction s as [|c s IH]; [done|]. by rewrite append_cons, IH. Qed.

Lemma append_assoc (a b c : string) : (a +:+ b) +:+ c = a +:+ (b +:+ c).
Proof.
  induction a as [|x a IH]; [done|]. rewrite !append_cons. by rewrite IH.
Qed.

Lemma space_width_cases s :
  space_width s = 0%nat ∨
  (∃ c s1, s = String c s1 ∧ space_width s = 1%nat) ∨
  (∃ c d s2, s = String c (String d s2) ∧ space_width s = 2%nat) ∨
  (∃ c d e s3, s = String c (String d (String e s3)) ∧ space_width s = 3%nat).
Proof.
  destruct s as [|c [|d [|e s3]]]; cbn; [by left|..].
  - destruct (py_isspace c); [right; left; eauto|by left].
  - destruct (py_isspace c); [right; left; eauto|].
    destruct (py_isspace2 c d); [right; right; left; eauto|by left].
  - destruct (py_isspace c); [right; left; eauto|].
    destruct (py_isspace2 c d); [right; right; left; eauto|].
    destruct (py_isspace3 c d e); [right; right; right; eauto 10|by left].
Qed.

Lemma lstrip_unfold s :
  lstrip s = if (space_width s =? 0)%nat then s
             else lstrip (drop_str (space_width s) s).
Proof.
  destruct (space_width_cases s)
    as [H|[(c & s1 & -> & H)|[(c & d & s2 & -> & H)|(c & d & e & s3 & -> & H)]]].
  - rewrite H. destruct s; cbn [lstrip]; [done|]. by rewrite H.
  - cbn [lstrip]. by rewrite H.
  - cbn [lstrip]. by rewrite H.
  - cbn [lstrip]. by rewrite H.
Qed.

Lemma space_width_length s : (space_width s ≤ String.length s)%nat.
Proof.
  destruct (space_width_cases s)
    as [H|[(c & s1 & -> & H)|[(c & d & s2 & -> & H)|(c & d & e & s3 & -> & H)]]];
    rewrite H; cbn; lia.
Qed.

Lemma drop_str_length n s :
  String.length (drop_str n s) = (String.length s - n)%nat.
Proof.
  revert s. induction n as [|n IH]; intros [|c s]; cbn; done.
Qed.

Lemma drop_str_app n (x z : string) :
  (n ≤ String.length x)%nat → drop_str n (x +:+ z) = drop_str n x +:+ z.
Proof.
  revert x. induction n as [|n IH]; intros [|c x]; cbn; try done; [lia|].
  intros H. apply IH. lia.
Qed.

(** What a string starts with is not changed by what follows it. *)
Lemma space_width_app x z :
  space_width x ≠ 0%nat → space_width (x +:+ z) = space_width x.
Proof.
  destruct x as [|c [|d [|e s3]]]; rewrite ?append_cons;
    cbn [space_width]; try done.
  - destruct (py_isspace c); [done|]. by destruct z.
  - destruct (py_isspace c); [done|].
    destruct (py_isspace2 c d); [done|]. by destruct z.
Qed.

(** Induction on a string by the characters [lstrip] removes. *)
Lemma lstrip_ind (P : string → Prop) :
  (∀ s, space_width s = 0%nat → P s) →
  (∀ s, space_width s ≠ 0%nat → P (drop_str (space_width s) s) → P s) →
  ∀ s, P s.
Proof.
  intros H0 Hstep s.
  assert (∀ n s, (String.length s ≤ n)%nat → P s) as Hall; [|by eapply Hall].
  clear s. induction n as [|n IH]; intros s Hlen.
  - destruct s; [|cbn in Hlen; lia]. by apply H0.
  - destruct (decide (space_width s = 0%nat)) as [Hw|Hw]; [by apply H0|].
    apply Hstep; [done|]. apply IH. rewrite drop_str_length. lia.
Qed.

Lemma space_width_lstrip s : space_width (lstrip s) = 0%nat.
Proof.
  induction s as [s H|s H IH] using lstrip_ind; rewrite lstrip_unfold.
  - by rewrite H, Nat.eqb_refl.
  - apply Nat.eqb_neq in H. by rewrite H.
Qed.

Lemma lstrip_idemp s : lstrip (lstrip s) = lstrip s.
Proof.
  rewrite (lstrip_unfold (lstrip s)). by rewrite space_width_lstrip.
Qed.

(** Whitespace in front of a string goes with the string's own. *)
Lemma lstrip_app x z : lstrip x = "" → lstrip (x +:+ z) = lstrip z.
Proof.
  induction x as [x H|x H IH] using lstrip_ind.
  - rewrite (lstrip_unfold x), H, Nat.eqb_refl. by intros ->.
  - rewrite (lstrip_unfold x), (lstrip_unfold (x +:+ z)).
    rewrite space_width_app by done.
    pose proof H as H'. apply Nat.eqb_neq in H'. rewrite H'.
    rewrite drop_str_app by apply space_width_length. apply IH.
Qed.

(** [rstrip] cuts a run of whitespace off the end. *)
Lemma rstrip_app s : ∃ z, s = rstrip s +:+ z ∧ lstrip z = "".
Proof.
  induction s as [|c s (z & IH & Hz)]; [by exists ""|].
  cbn [rstrip]. destruct (String.eqb_spec (lstrip (String c s)) "") as [E|E].
  - by exists (String c s).
  - exists z. split; [|done]. rewrite append_cons. by rewrite <- IH.
Qed.

Lemma lstrip_rstrip_empty s : lstrip (rstrip s) = "" → lstrip s = "".
Proof.
  intros H. destruct (rstrip_app s) as (z & Hs & Hz).
  rewrite Hs, lstrip_app by done. done.
Qed.

(** No whitespace is left at the end: no tail of the result, the empty
    one apart, is whitespace only. *)
Lemma rstrip_end s a b : rstrip s = a +:+ b → b ≠ "" → lstrip b ≠ "".
Proof.
  revert a. induction s as [|c s IH]; intros a; cbn [rstrip].
  - destruct a, b; done.
  - destruct (String.eqb_spec (lstrip (String c s)) "") as [E|E].
    { destruct a, b; done. }
    destruct a as [|x a].
    + change ("" +:+ b) with b. intros <- _ Hl. apply E.
      apply lstrip_rstrip_empty. cbn [rstrip].
      by destruct (String.eqb_spec (lstrip (String c s)) "").
    + rewrite append_cons. intros [= _ Hs]. by apply (IH a).
Qed.

Lemma rstrip_fixed s :
  (∀ a b, s = a +:+ b → b ≠ "" → lstrip b ≠ "") → rstrip s = s.
Proof.
  induction s as [|c s IH]; [done|]. intros H. cbn [rstrip].
  destruct (String.eqb_spec (lstrip (String c s)) "") as [E|E].
  { by destruct (H "" (String c s)). }
  f_equal. apply IH. intros a b -> Hb. by apply (H (String c a) b).
Qed.

Lemma space_width_rstrip s : space_width s = 0%nat → space_width (rstrip s) = 0%nat.
Proof.
  intros H. destruct (rstrip_app s) as (z & Hs & _).
  destruct (decide (space_width (rstrip s) = 0%nat)) as [|Hw]; [done|].
  rewrite Hs, space_width_app in H; done.
Qed.

(** [strip] leaves whitespace at neither end, and nothing more to strip. *)
Lemma strip_trimmed s :
  space_width (strip s) = 0%nat ∧
  (∀ a b, strip s = a +:+ b → b ≠ "" → lstrip b ≠ "") ∧
  strip (strip s) = strip s.
Proof.
  assert (space_width (strip s) = 0%nat) as Hw.
  { apply space_width_rstrip, space_width_lstrip. }
  assert (∀ a b, strip s = a +:+ b → b ≠ "" → lstrip b ≠ "") as Hend.
  { intros a b. apply rstrip_end. }
  split; [done|]. split; [done|].
  unfold strip at 1. rewrite (lstrip_unfold (strip s)), Hw, Nat.eqb_refl.
  by apply rstrip_fixed.
Qed.

(** A string is blank when whitespace is all it has. *)
Lemma strip_empty s : strip s = "" ↔ lstrip s = "".
Proof.
  unfold strip. split; [|by intros ->].
  intros H. destruct (rstrip_app (lstrip s)) as (z & Hs & Hz).
  rewrite H in Hs. cbn in Hs. rewrite <- lstrip_idemp, Hs. done.
Qed.

(** ** a2a_protocol/oauth2.py *)

Module OAuth2.

Definition JWT_ALGORITHM : string := "HS256".
Definition OAUTH2_SCOPE : string := "a2a:travel-agent".

Record OAuth2Client := {
  client_id : string;
  client_secret_hash : string;
  name : string;
  scopes : list string;
  enabled : bool;
  created_at : Z
}.

(** *** PyJWT

    The library is not part of the repository. [jwt.decode] is modelled by
    its documented contract over four parameters: the parser of the
    compact serialisation, the MAC, the serialiser, and [int] on a
    string. A parsed token carries the header's algorithm, the bytes the
    signature covers, the signature, and the claims. The token is
    encoded to bytes first, which a [str] with an unpaired surrogate
    refuses with [UnicodeEncodeError]. JSON numbers in the claims are
    integers, and the clock is read in whole seconds: for integer claims
    the comparisons against the floating-point clock of the library and
    against its floor agree. *)

Record jws := {
  jws_alg : string;
  jws_signing_input : string;
  jws_signature : string;
  jws_payload : gmap string value
}.

(** The subclasses of [jwt.InvalidTokenError] that [jwt.decode] raises. *)
Inductive jwt_error :=
| DecodeError
| InvalidSignatureError
| InvalidAlgorithmError
| ExpiredSignatureError
| ImmatureSignatureError
| InvalidIssuedAtError
| InvalidAudienceError
| InvalidSubjectError
| InvalidJTIError
| MissingRequiredClaimError.

(** What [jwt.decode] does: the claims, one of those errors, or an
    exception that is none of them. *)
Inductive jwt_result :=
| JwtOk (payload : gmap string value)
| JwtErr (e : jwt_error)
| JwtRaise (e : exn).

Definition jwt_error_name (e : jwt_error) : string :=
  match e with
  | DecodeError => "DecodeError"
  | InvalidSignatureError => "InvalidSignatureError"
  | InvalidAlgorithmError => "InvalidAlgorithmError"
  | ExpiredSignatureError => "ExpiredSignatureError"
  | ImmatureSignatureError => "ImmatureSignatureError"
  | InvalidIssuedAtError => "InvalidIssuedAtError"
  | InvalidAudienceError => "InvalidAudienceError"
  | InvalidSubjectError => "InvalidSubjectError"
  | InvalidJTIError => "InvalidJTIError"
  | MissingRequiredClaimError => "MissingRequiredClaimError"
  end.

(** [isinstance(e, jwt.ExpiredSignatureError)] *)
Definition is_ExpiredSignatureError (e : jwt_error) : bool :=
  match e with ExpiredSignatureError => true | _ => false end.

(** [isinstance(e, jwt.InvalidTokenError)]: the base class of all of them. *)
Definition is_InvalidTokenError (e : jwt_error) : bool :=
  match e with
  | DecodeError | InvalidSignatureError | InvalidAlgorithmError
  | ExpiredSignatureError | ImmatureSignatureError | InvalidIssuedAtError
  | InvalidAudienceError | InvalidSubjectError | InvalidJTIError
  | MissingRequiredClaimError => true
  end.

Definition is_VStr (v : value) : bool :=
  match v with VStr _ => true | _ => false end.

Definition value_is_str (s : string) (v : value) : bool :=
  match v with VStr s' => String.eqb s' s | _ => false end.

Definition validate_aud (payload : gmap string value) (audience : string)
  : option jwt_error :=
  match payload !! "aud" with
  | None => Some MissingRequiredClaimError
  | Some aud =>
      if negb (truthy aud) then Some MissingRequiredClaimError
      else
        match aud with
        | VStr s => if String.eqb s audience then None else Some InvalidAudienceError
        | VList claims =>
            if negb (forallb is_VStr claims) then Some InvalidAudienceError
            else if existsb (value_is_str audience) claims then None
            else Some InvalidAudienceError
        | _ => Some InvalidAudienceError
        end
  end.

(** A claim that must be a string when it is there ([sub], [jti]). *)
Definition validate_str (claim : string) (bad : jwt_error)
  (payload : gmap string value) : option jwt_error :=
  match payload !! claim with
  | None => None
  | Some v => if is_VStr v then None else Some bad
  end.

Section oauth2.

(** [hashlib.sha256(s.encode()).hexdigest()] *)
Variable sha256_hexdigest : string → string.
(** [hmac.new(key, msg, sha256).digest()] *)
Variable hmac_sha256 : string → string → string.
(** Header, claims and signature of a compact serialisation; [None] when
    the string is not one. *)
Variable jws_load : string → option jws.
(** [jwt.encode(payload, key, algorithm)] *)
Variable jwt_encode : gmap string value → string → string → string.
(** [base64.b64decode(s).decode("utf-8")]; [None] when either step raises. *)
Variable b64decode_utf8 : string → option string.

(** [int(s)] for a string; [None] when it raises [ValueError]. *)
Variable int_of_str : string → option Z.

(** Module-level configuration, read from the environment at import. *)
Variable JWT_SECRET_KEY : string.
Variable TOKEN_EXPIRY_SECONDS : Z.
Variable DEFAULT_CLIENT_ID : string.
Variable DEFAULT_CLIENT_SECRET : string.

(** [int(v)] as the library applies it to a time claim; [None] when
    the claim is refused as not an integer. The library refuses on
    [ValueError]; a claim that is null, a list or an object makes
    [int] raise [TypeError] instead. Only a token signed with the key
    can bring one as far as this check; it is refused here like the
    others, and [time_claims_convertible] names the tokens without
    one. *)
Definition claim_int (v : value) : option Z :=
  match v with
  | VInt n => Some n
  | VBool b => Some (Z.b2z b)
  | VStr s => int_of_str s
  | VNone | VList _ | VDict _ => None
  end.

(** A time claim that must not lie in the future ([iat], [nbf]). *)
Definition validate_not_future (claim : string) (bad : jwt_error)
  (payload : gmap string value) (now : Z) : option jwt_error :=
  match payload !! claim with
  | None => None
  | Some v =>
      match claim_int v with
      | Some t => if (now <? t)%Z then Some ImmatureSignatureError else None
      | None => Some bad
      end
  end.

Definition validate_exp (payload : gmap string value) (now : Z) : option jwt_error :=
  match payload !! "exp" with
  | None => None
  | Some v =>
      match claim_int v with
      | Some exp => if (exp <=? now)%Z then Some ExpiredSignatureError else None
      | None => Some DecodeError
      end
  end.

(** The first failing check decides, in the library's order: issued-at,
    not-before, expiry, audience, subject, token id. *)
Definition validate_claims (payload : gmap string value) (audience : string)
  (now : Z) : option jwt_error :=
  match validate_not_future "iat" InvalidIssuedAtError payload now with
  | Some e => Some e
  | None =>
  match validate_not_future "nbf" DecodeError payload now with
  | Some e => Some e
  | None =>
  match validate_exp payload now with
  | Some e => Some e
  | None =>
  match validate_aud payload audience with
  | Some e => Some e
  | None =>
  match validate_str "sub" InvalidSubjectError payload with
  | Some e => Some e
  | None => validate_str "jti" InvalidJTIError payload
  end end end end end.

(** [jwt.decode(token, key, algorithms=..., audience=...)] at clock [now]. *)
Definition jwt_decode (token : py_str) (key : string) (algorithms : list string)
  (audience : string) (now : Z) : jwt_result :=
  match token with
  | Unpaired _ =>
      JwtRaise (PyExn "UnicodeEncodeError" "surrogates not allowed")
  | Text token =>
      match jws_load token with
      | None => JwtErr DecodeError
      | Some j =>
          if negb (existsb (String.eqb (jws_alg j)) algorithms)
          then JwtErr InvalidAlgorithmError
          else if negb (String.eqb (jws_signature j)
                          (hmac_sha256 key (jws_signing_input j)))
          then JwtErr InvalidSignatureError
          else match validate_claims (jws_payload j) audience now with
               | Some e => JwtErr e
               | None => JwtOk (jws_payload j)
               end
      end
  end.

(** What the library promises of [jwt.encode] at one payload: the token
    parses back to that payload under a signature made with the key. *)
Definition jwt_codec_ok (payload : gmap string value) : Prop :=
  ∃ si, jws_load (jwt_encode payload JWT_SECRET_KEY JWT_ALGORITHM)
        = Some {| jws_alg := JWT_ALGORITHM;
                  jws_signing_input := si;
                  jws_signature := hmac_sha256 JWT_SECRET_KEY si;
                  jws_payload := payload |}.

(** *** Client registry *)

(** [ClientRegistry._hash_secret]: a value without [encode] raises. *)
Definition _hash_secret (secret : value) : outcome string :=
  match secret with
  | VStr s => Return (sha256_hexdigest s)
  | _ => Raise (PyExn "AttributeError" "object has no attribute 'encode'")
  end.

(** [ClientRegistry.register_client]; the registry is its [_clients]
    dictionary, [now] the clock read for [created_at]. *)
Definition register_client (_clients : gmap string OAuth2Client) (now : Z)
  (client_id client_secret name : string) (scopes : option (list string))
  : OAuth2Client * gmap string OAuth2Client :=
  let client := {|
    client_id := client_id;
    client_secret_hash := sha256_hexdigest client_secret;
    name := name;
    scopes := match scopes with
              | Some (s :: l) => s :: l
              | _ => [OAUTH2_SCOPE]
              end;
    enabled := true;
    created_at := now |} in
  (client, <[client_id := client]> _clients).

(** [ClientRegistry.__init__] *)
Definition ClientRegistry_init (now : Z) : gmap string OAuth2Client :=
  snd (register_client ∅ now DEFAULT_CLIENT_ID DEFAULT_CLIENT_SECRET
         "Default Travel Agent Client" None).

(** [ClientRegistry.validate_client]. The endpoint passes what it read
    from the request, so the arguments are values: a key that cannot be
    hashed raises in [dict.get], and a key that is not a string is not
    found. *)
Definition validate_client (_clients : gmap string OAuth2Client)
  (client_id client_secret : value) : outcome (option OAuth2Client) :=
  if negb (hashable client_id)
  then Raise (PyExn "TypeError" "unhashable type")
  else
    match client_id with
    | VStr cid =>
        match _clients !! cid with
        | None => Return None
        | Some client =>
            if negb (enabled client) then Return None
            else
              obind (_hash_secret client_secret) (λ h,
                if negb (String.eqb (client_secret_hash client) h)
                then Return None
                else Return (Some client))
        end
    | _ => Return None
    end.

(** [ClientRegistry.get_client] *)
Definition get_client (_clients : gmap string OAuth2Client) (client_id : string)
  : option OAuth2Client := _clients !! client_id.

(** The registries the program can hold: the constructor's, and any
    later registration. *)
Inductive registry : gmap string OAuth2Client → Prop :=
| registry_init now : registry (ClientRegistry_init now)
| registry_register reg now cid secret nm scs :
    registry reg →
    registry (snd (register_client reg now cid secret nm scs)).

(** *** Token management *)

(** Lines 157-160 of [generate_access_token]. *)
Definition granted_scopes (client : OAuth2Client)
  (requested_scopes : option (list string)) : list string :=
  match requested_scopes with
  | Some (s :: l) =>
      filter (λ s, s ∈ scopes client) (s :: l)
  | _ => scopes client
  end.

(** The claims [generate_access_token] signs; [jti] is the random token id. *)
Definition token_payload (client : OAuth2Client)
  (requested_scopes : option (list string)) (now : Z) (jti : string)
  : gmap string value :=
  let expiry := (now + TOKEN_EXPIRY_SECONDS)%Z in
  dict_of [
    ("client_id", VStr (client_id client));
    ("scopes", VList (VStr <$> granted_scopes client requested_scopes));
    ("exp", VInt expiry);
    ("iat", VInt now);
    ("jti", VStr jti);
    ("iss", VStr "travel-agent-oauth2");
    ("aud", VStr "travel-agent-a2a") ].

Definition generate_access_token (client : OAuth2Client)
  (requested_scopes : option (list string)) (now : Z) (jti : string)
  : gmap string value :=
  let payload := token_payload client requested_scopes now jti in
  let token := jwt_encode payload JWT_SECRET_KEY JWT_ALGORITHM in
  dict_of [
    ("access_token", VStr token);
    ("token_type", VStr "Bearer");
    ("expires_in", VInt TOKEN_EXPIRY_SECONDS);
    ("scope", VStr (join " " (granted_scopes client requested_scopes))) ].

(** [validate_access_token]: the two [except] clauses in order; an
    exception neither of them names would leave the function. *)
Definition validate_access_token (now : Z) (token : py_str)
  : outcome (option (gmap string value)) :=
  match jwt_decode token JWT_SECRET_KEY [JWT_ALGORITHM] "travel-agent-a2a" now with
  | JwtOk payload => Return (Some payload)
  | JwtErr e =>
      if is_ExpiredSignatureError e then Return None
      else if is_InvalidTokenError e then Return None
      else Raise (PyExn (jwt_error_name e) "")
  | JwtRaise e => Raise e
  end.

(** *** Token endpoint *)

(** A request as the handlers read it. Header names are lower-case
    (Starlette compares them case-insensitively). [json_body] is what
    [await request.json()] returns, [None] when it raises; [form_body] is
    the items of [await request.form()]. *)
Record Request := {
  method : string;
  path : string;
  headers : gmap string string;
  json_body : option value;
  form_body : list (string * string)
}.

Record JSONResponse := {
  status_code : Z;
  content : gmap string value;
  response_headers : gmap string string
}.

Definition error_response (status : Z) (error description : string)
  (hdrs : gmap string string) : JSONResponse :=
  {| status_code := status;
     content := dict_of [("error", VStr error);
                         ("error_description", VStr description)];
     response_headers := hdrs |}.

(** [body.get(k, dflt)] on whatever the body parsed to. *)
Definition body_get (body : value) (k : string) (dflt : value) : outcome value :=
  match body with
  | VDict fields => Return (dict_get_default k dflt (dict_of fields))
  | _ => Raise (PyExn "AttributeError" "object has no attribute 'get'")
  end.

(** Lines 257-265: credentials from a Basic header replace the body's
    when either is missing there; every failure of the decoding is
    swallowed. *)
Definition basic_auth_credentials (request : Request)
  (client_id client_secret : value) : value * value :=
  if negb (truthy client_id) || negb (truthy client_secret) then
    let auth_header := default "" (headers request !! "authorization") in
    if startswith "Basic " auth_header then
      match b64decode_utf8 (drop_str 6 auth_header) with
      | Some decoded =>
          match split_colon decoded with
          | Some (cid, secret) => (VStr cid, VStr secret)
          | None => (client_id, client_secret)
          end
      | None => (client_id, client_secret)
      end
    else (client_id, client_secret)
  else (client_id, client_secret).

(** Lines 299-300. *)
Definition requested_scopes_of (scope_str : value) : outcome (option (list string)) :=
  if truthy scope_str then
    match scope_str with
    | VStr s => Return (Some (split s))
    | _ => Raise (PyExn "AttributeError" "object has no attribute 'split'")
    end
  else Return None.

(** Lines 237-250: the parsed body, or the response that ends the call. *)
Definition parse_body (request : Request) : JSONResponse + value :=
  let content_type := default "" (headers request !! "content-type") in
  if contains "application/json" content_type then
    match json_body request with
    | None => inl (error_response 400 "invalid_request" "Invalid JSON body" ∅)
    | Some body => inr body
    end
  else inr (VDict (prod_map id VStr <$> form_body request)).

Definition token_endpoint (client_registry : gmap string OAuth2Client)
  (request : Request) (now : Z) (jti : string) : outcome JSONResponse :=
  match parse_body request with
  | inl response => Return response
  | inr body =>
      obind (body_get body "client_id" VNone) (λ client_id,
      obind (body_get body "client_secret" VNone) (λ client_secret,
      let '(client_id, client_secret) :=
        basic_auth_credentials request client_id client_secret in
      obind (body_get body "grant_type" VNone) (λ grant_type,
      if negb (value_is_str "client_credentials" grant_type) then
        Return (error_response 400 "unsupported_grant_type"
                  "Only 'client_credentials' grant type is supported" ∅)
      else if negb (truthy client_id) || negb (truthy client_secret) then
        Return (error_response 400 "invalid_request"
                  "client_id and client_secret are required" ∅)
      else
        obind (validate_client client_registry client_id client_secret) (λ client,
        match client with
        | None =>
            Return (error_response 401 "invalid_client"
                      "Invalid client credentials" ∅)
        | Some client =>
            obind (body_get body "scope" (VStr "")) (λ scope_str,
            obind (requested_scopes_of scope_str) (λ requested_scopes,
            Return {| status_code := 200;
                      content := generate_access_token client requested_scopes now jti;
                      response_headers := ∅ |}))
        end))))
  end.

(** *** Authentication middleware *)

Definition PUBLIC_PATHS : gset string :=
  {[ "/.well-known/agent-card.json"; "/.well-known/agent.json";
     "/oauth/token"; "/health" ]}.

(** The attributes [dispatch] sets on [request.state]; [None] is an
    attribute that was not set. *)
Record State := {
  oauth2_client_id : option value;
  oauth2_scopes : option value
}.

Definition no_state : State :=
  {| oauth2_client_id := None; oauth2_scopes := None |}.

(** What [dispatch] returns: a response of its own, or the downstream
    handler's, called with the request state shown. *)
Inductive dispatched :=
| Respond (response : JSONResponse)
| CallNext (state : State).

(** The header value [Bearer error="invalid_token"]. *)
Definition invalid_token_challenge : string :=
  "Bearer error=" +:+ String "034"%char ("invalid_token" +:+ String "034"%char "").

(** [OAuth2Middleware.dispatch] *)
Definition dispatch (require_auth : bool)
  (client_registry : gmap string OAuth2Client)
  (request : Request) (now : Z) (jti : string) : outcome dispatched :=
  if String.eqb (path request) "/oauth/token" then
    obind (token_endpoint client_registry request now jti) (λ r, Return (Respond r))
  else if bool_decide (path request ∈ PUBLIC_PATHS) then
    Return (CallNext no_state)
  else if String.eqb (method request) "GET" && String.eqb (path request) "/" then
    Return (CallNext no_state)
  else if require_auth then
    let auth_header := default "" (headers request !! "authorization") in
    if negb (startswith "Bearer " auth_header) then
      Return (Respond (error_response 401 "unauthorized" "Bearer token required"
                         {[ "WWW-Authenticate" := "Bearer" ]}))
    else
      let token := drop_str 7 auth_header in
      obind (validate_access_token now token) (λ payload,
      match payload with
      | Some payload =>
          if (size payload =? 0)%nat then
            Return (Respond (error_response 401 "invalid_token"
                     "Invalid or expired access token"
                     {[ "WWW-Authenticate" := invalid_token_challenge ]}))
          else
            Return (CallNext
              {| oauth2_client_id := Some (dict_get "client_id" payload);
                 oauth2_scopes := Some (dict_get_default "scopes" (VList []) payload) |})
      | None =>
          Return (Respond (error_response 401 "invalid_token"
                   "Invalid or expired access token"
                   {[ "WWW-Authenticate" := invalid_token_challenge ]}))
      end)
  else Return (CallNext no_state).

(** *** Properties of the registry and of token issuance *)

(** Every entry of a registry is filed under its own client id. *)
Lemma registry_client_id reg k c :
  registry reg → reg !! k = Some c → client_id c = k.
Proof.
  intros Hreg. revert k c.
  induction Hreg as [now | reg now cid secret nm scs _ IH]; intros k c;
    unfold ClientRegistry_init, register_client; simpl;
    intros [[<- <-] | [_ Hk]]%lookup_insert_Some; try reflexivity.
  - rewrite lookup_empty in Hk. discriminate.
  - eauto.
Qed.

(** A client's scope list is never empty after registration. *)
Lemma registry_scopes_nonempty reg k c :
  registry reg → reg !! k = Some c → scopes c ≠ [].
Proof.
  intros Hreg. revert k c.
  induction Hreg as [now | reg now cid secret nm scs _ IH]; intros k c;
    unfold ClientRegistry_init, register_client; simpl;
    intros [[_ <-] | [_ Hk]]%lookup_insert_Some; simpl; try discriminate.
  - destruct scs as [[|]|]; discriminate.
  - eauto.
Qed.

(** What a successful validation of string credentials establishes. *)
Lemma validate_client_Some reg cid secret c :
  validate_client reg (VStr cid) (VStr secret) = Return (Some c) →
  reg !! cid = Some c ∧ enabled c = true ∧
  client_secret_hash c = sha256_hexdigest secret.
Proof.
  unfold validate_client. simpl.
  destruct (reg !! cid) as [c'|]; [|discriminate].
  destruct (enabled c') eqn:He; simpl; [|discriminate].
  destruct (String.eqb (client_secret_hash c') (sha256_hexdigest secret)) eqn:Hh;
    simpl; [|discriminate].
  intros [= <-]. apply String.eqb_eq in Hh. auto.
Qed.

(** String credentials never make [validate_client] raise. *)
Lemma validate_client_str_returns reg cid secret :
  ∃ r, validate_client reg (VStr cid) (VStr secret) = Return r.
Proof.
  unfold validate_client. simpl.
  destruct (reg !! cid) as [c'|]; [|eauto].
  destruct (enabled c'); simpl; [|eauto].
  destruct (String.eqb _ _); simpl; eauto.
Qed.

(** The pair a client was registered with validates to that client. *)
Lemma validate_registered reg now cid secret nm scs :
  validate_client (snd (register_client reg now cid secret nm scs))
    (VStr cid) (VStr secret)
  = Return (Some (fst (register_client reg now cid secret nm scs))).
Proof.
  unfold validate_client, register_client. simpl.
  rewrite lookup_insert_eq. simpl. rewrite String.eqb_refl. reflexivity.
Qed.

Lemma granted_scopes_allowed c requested s :
  s ∈ granted_scopes c requested → s ∈ scopes c.
Proof.
  unfold granted_scopes. destruct requested as [[|r l]|]; auto.
  intros [? _]%list_elem_of_filter. assumption.
Qed.

Lemma granted_scopes_requested c r l s :
  s ∈ granted_scopes c (Some (r :: l)) ↔ s ∈ r :: l ∧ s ∈ scopes c.
Proof.
  unfold granted_scopes. rewrite list_elem_of_filter. tauto.
Qed.

Lemma token_payload_lookup c requested now jti :
  let p := token_payload c requested now jti in
  p !! "client_id" = Some (VStr (client_id c)) ∧
  p !! "scopes" = Some (VList (VStr <$> granted_scopes c requested)) ∧
  p !! "exp" = Some (VInt (now + TOKEN_EXPIRY_SECONDS)) ∧
  p !! "iat" = Some (VInt now) ∧
  p !! "nbf" = None ∧
  p !! "aud" = Some (VStr "travel-agent-a2a").
Proof. repeat split; reflexivity. Qed.

Lemma token_payload_sub_jti c requested now jti :
  token_payload c requested now jti !! "sub" = None ∧
  token_payload c requested now jti !! "jti" = Some (VStr jti).
Proof. split; reflexivity. Qed.

(** The claims of a freshly issued token pass the library's checks
    exactly while the clock has not reached [exp]. *)
Lemma validate_claims_token_payload c requested now jti now' :
  (now ≤ now' < now + TOKEN_EXPIRY_SECONDS)%Z →
  validate_claims (token_payload c requested now jti) "travel-agent-a2a" now' = None.
Proof.
  intros [Hle Hlt].
  destruct (token_payload_lookup c requested now jti)
    as (_ & _ & Hexp & Hiat & Hnbf & Haud).
  destruct (token_payload_sub_jti c requested now jti) as [Hsub Hjti].
  unfold validate_claims, validate_not_future, validate_exp, validate_aud,
    validate_str.
  rewrite Hiat, Hnbf, Hexp, Haud, Hsub, Hjti. cbn [claim_int].
  replace (now' <? now)%Z with false by lia.
  replace (now + TOKEN_EXPIRY_SECONDS <=? now')%Z with false by lia.
  reflexivity.
Qed.

Lemma generate_access_token_lookup c requested now jti :
  let r := generate_access_token c requested now jti in
  r !! "access_token"
    = Some (VStr (jwt_encode (token_payload c requested now jti)
                    JWT_SECRET_KEY JWT_ALGORITHM)) ∧
  r !! "token_type" = Some (VStr "Bearer") ∧
  r !! "expires_in" = Some (VInt TOKEN_EXPIRY_SECONDS) ∧
  r !! "scope" = Some (VStr (join " " (granted_scopes c requested))).
Proof. repeat split; reflexivity. Qed.

(** [validate_access_token] in terms of the parsed token. *)
Lemma validate_access_token_Some now (token : string) claims :
  validate_access_token now token = Return (Some claims) ↔
  ∃ j, jws_load token = Some j ∧ claims = jws_payload j ∧
       jws_alg j = JWT_ALGORITHM ∧
       jws_signature j = hmac_sha256 JWT_SECRET_KEY (jws_signing_input j) ∧
       validate_claims (jws_payload j) "travel-agent-a2a" now = None.
Proof.
  unfold validate_access_token, jwt_decode. split.
  - destruct (jws_load token) as [j|]; [|discriminate]. simpl.
    rewrite orb_false_r.
    destruct (String.eqb (jws_alg j) JWT_ALGORITHM) eqn:Halg; simpl; [|discriminate].
    destruct (String.eqb (jws_signature j) _) eqn:Hsig; simpl; [|discriminate].
    destruct (validate_claims _ _ _) as [e|] eqn:Hc; [destruct e; discriminate|].
    intros [= <-]. exists j.
    apply String.eqb_eq in Halg, Hsig. auto.
  - intros (j & -> & -> & Halg & Hsig & Hc). simpl.
    rewrite Halg, <- Hsig, Hc, !String.eqb_refl. reflexivity.
Qed.


(** C1 (token round-trip). Credentials that [validate_client] accepts
    name a client of the registry; the token [generate_access_token]
    issues for it at clock [now], verified at a clock [now'] before
    its expiry, yields claims whose [client_id] is the id the client was
    validated under and whose [scopes] all lie in the client's allowed
    scopes. *)
Theorem token_round_trip reg cid secret c requested now jti now' :
  registry reg →
  validate_client reg (VStr cid) (VStr secret) = Return (Some c) →
  jwt_codec_ok (token_payload c requested now jti) →
  (now ≤ now' < now + TOKEN_EXPIRY_SECONDS)%Z →
  ∃ token claims granted,
    generate_access_token c requested now jti !! "access_token" = Some (VStr token) ∧
    validate_access_token now' token = Return (Some claims) ∧
    claims !! "client_id" = Some (VStr cid) ∧
    claims !! "scopes" = Some (VList (VStr <$> granted)) ∧
    granted ⊆ scopes c.
Proof.
  intros Hreg Hval [si Hcodec] Hclock.
  apply validate_client_Some in Hval as (Hlook & _ & _).
  pose proof (registry_client_id _ _ _ Hreg Hlook) as Hid.
  destruct (token_payload_lookup c requested now jti) as (Hcid & Hsc & _).
  exists (jwt_encode (token_payload c requested now jti) JWT_SECRET_KEY JWT_ALGORITHM),
         (token_payload c requested now jti),
         (granted_scopes c requested).
  split; [apply generate_access_token_lookup|].
  split.
  - apply validate_access_token_Some. eexists. split; [exact Hcodec|].
    simpl. repeat split; auto using validate_claims_token_payload.
  - rewrite <- Hid. repeat split; auto.
    intros s. apply granted_scopes_allowed.
Qed.

(** *** Why a token is refused *)







(** The [exp] claim, as the integer the library reads it as, is not
    after the clock. *)
Definition expired (now : Z) (token : string) : Prop :=
  ∃ j v exp, jws_load token = Some j ∧
             jws_payload j !! "exp" = Some v ∧
             claim_int v = Some exp ∧ (exp ≤ now)%Z.

Lemma value_is_str_true s v : value_is_str s v = true → v = VStr s.
Proof.
  destruct v; simpl; try discriminate.
  intros ->%String.eqb_eq. reflexivity.
Qed.






(** C6 (scope narrowing). With a non-empty list of requested scopes the
    granted scopes are the requested ones that the client is allowed, in
    the order requested; with none requested they are the client's
    allowed scopes. Those are the scopes signed into the token and
    listed in the response, and no scope outside the client's allowed
    scopes is among them. *)
Theorem scope_narrowing c requested now jti :
  token_payload c requested now jti !! "scopes"
    = Some (VList (VStr <$> granted_scopes c requested)) ∧
  generate_access_token c requested now jti !! "scope"
    = Some (VStr (join " " (granted_scopes c requested))) ∧
  granted_scopes c requested
    = match requested with
      | None | Some [] => scopes c
      | Some l => filter (λ s, s ∈ scopes c) l
      end ∧
  (∀ s l, requested = Some l → l ≠ [] →
     (s ∈ granted_scopes c requested ↔ s ∈ l ∧ s ∈ scopes c)) ∧
  (∀ s, s ∉ scopes c → s ∉ granted_scopes c requested).
Proof.
  split; [apply token_payload_lookup|].
  split; [apply generate_access_token_lookup|].
  split; [destruct requested as [[|]|]; reflexivity|].
  split.
  - intros s [|r l] -> Hl; [done|]. apply granted_scopes_requested.
  - intros s Hs Hg. apply Hs. eauto using granted_scopes_allowed.
Qed.

(** *** The gateway's decision table *)

(** A response that rejects with the given status and error code. *)
Definition rejects (r : JSONResponse) (status : Z) (error : string) : Prop :=
  status_code r = status ∧ content r !! "error" = Some (VStr error).






(** *** The token endpoint's responses *)

Definition str_or_none (v : value) : bool :=
  match v with VNone | VStr _ => true | _ => false end.

(** The [grant_type] a request carries: [None] when its body has none. *)
Definition grant_type_of (request : Request) : value :=
  match parse_body request with
  | inr (VDict fields) => dict_get "grant_type" (dict_of fields)
  | _ => VNone
  end.

(** The credentials after the Basic header has been consulted. *)
Definition credentials (request : Request) (fields : list (string * value))
  : value * value :=
  basic_auth_credentials request
    (dict_get "client_id" (dict_of fields))
    (dict_get "client_secret" (dict_of fields)).





Lemma parse_body_inl request r :
  parse_body request = inl r → rejects r 400 "invalid_request".
Proof.
  unfold parse_body. destruct (contains _ _); [|discriminate].
  destruct (json_body request); [discriminate|].
  intros [= <-]. split; reflexivity.
Qed.

Lemma truthy_str v :
  str_or_none v = true → truthy v = true → ∃ s, v = VStr s ∧ s ≠ "".
Proof.
  destruct v; try discriminate. simpl. intros _ Hs.
  eexists. split; [done|]. intros ->. discriminate.
Qed.


Lemma grant_type_of_dict request fields :
  parse_body request = inr (VDict fields) →
  grant_type_of request = dict_get "grant_type" (dict_of fields).
Proof. unfold grant_type_of. by intros ->. Qed.


(** Only a request that passed every check is answered 200, whatever
    the types of its fields. *)
Lemma token_response_only_when_valid reg request now jti r :
  token_endpoint reg request now jti = Return r →
  status_code r = 200 →
  ∃ fields cid secret c,
    parse_body request = inr (VDict fields) ∧
    grant_type_of request = VStr "client_credentials" ∧
    credentials request fields = (cid, secret) ∧
    truthy cid = true ∧ truthy secret = true ∧
    validate_client reg cid secret = Return (Some c).
Proof.
  unfold token_endpoint.
  destruct (parse_body request) as [r'|body] eqn:Hp.
  { intros [= <-] H. apply parse_body_inl in Hp as [Hst _]. lia. }
  destruct body as [| | | | |fields]; try discriminate.
  cbn [body_get obind].
  pose proof (grant_type_of_dict _ _ Hp) as Hgt.
  change (basic_auth_credentials request
            (dict_get_default "client_id" VNone (dict_of fields))
            (dict_get_default "client_secret" VNone (dict_of fields)))
    with (credentials request fields).
  destruct (credentials request fields) as [cid secret] eqn:Hcred.
  change (dict_get_default "grant_type" VNone (dict_of fields))
    with (dict_get "grant_type" (dict_of fields)).
  rewrite <- Hgt.
  destruct (value_is_str "client_credentials" (grant_type_of request)) eqn:Hg;
    cbn [negb]; [|intros [= <-]; discriminate].
  apply value_is_str_true in Hg.
  destruct (truthy cid) eqn:Htc; cbn [negb orb]; [|intros [= <-]; discriminate].
  destruct (truthy secret) eqn:Hts; cbn [negb]; [|intros [= <-]; discriminate].
  destruct (validate_client reg cid secret) as [[client|]|] eqn:Hv; cbn [obind];
    [|intros [= <-]; discriminate|discriminate].
  intros _ _. by exists fields, cid, secret, client.
Qed.



End oauth2.

(** *** The specification's concrete scenario

    An instance of the parameters on which the definitions run: client
    [acme] with secret [s3cr3t] and scope [a2a:travel-agent], registered
    next to the default client; one token, issued to it at clock 1000
    with a lifetime of 3600 seconds. The hash and the MAC are tagged
    concatenations, and the token codec knows that one token. *)

Definition demo_sha256 (s : string) : string := "sha256(" +:+ s +:+ ")".
Definition demo_hmac (key msg : string) : string :=
  "hmac(" +:+ key +:+ "," +:+ msg +:+ ")".
Definition demo_key : string := "signing-secret".
Definition demo_ttl : Z := 3600.
Definition demo_b64decode (s : string) : option string := Some s.

(** [int] on a run of ASCII digits. *)
Fixpoint digits_value (acc : Z) (s : string) : option Z :=
  match s with
  | EmptyString => Some acc
  | String c s' =>
      let n := Z.of_N (N_of_ascii c) in
      if ((48 <=? n) && (n <=? 57))%Z
      then digits_value (10 * acc + (n - 48)) s'
      else None
  end.

Definition demo_int (s : string) : option Z :=
  match s with
  | EmptyString => None
  | _ => digits_value 0 s
  end.

Definition demo_registry : gmap string OAuth2Client :=
  snd (register_client demo_sha256
         (ClientRegistry_init demo_sha256 "default" "default-secret" 0)
         0 "acme" "s3cr3t" "Acme" (Some ["a2a:travel-agent"])).

Definition demo_client : OAuth2Client :=
  fst (register_client demo_sha256
         (ClientRegistry_init demo_sha256 "default" "default-secret" 0)
         0 "acme" "s3cr3t" "Acme" (Some ["a2a:travel-agent"])).

Definition demo_claims : gmap string value :=
  token_payload demo_ttl demo_client None 1000 "jti-1".

Definition demo_token : string := "acme.token".

Definition demo_jwt_encode (payload : gmap string value) (key alg : string)
  : string := demo_token.

Definition demo_jws_load (token : string) : option jws :=
  if String.eqb token demo_token then
    Some {| jws_alg := "HS256";
            jws_signing_input := "acme";
            jws_signature := demo_hmac demo_key "acme";
            jws_payload := demo_claims |}
  else None.

(** A form-encoded token request, and a protocol request. *)
Definition token_request (form : list (string * string)) : Request :=
  {| method := "POST"; path := "/oauth/token";
     headers := {[ "content-type" := "application/x-www-form-urlencoded" ]};
     json_body := None; form_body := form |}.

Definition protocol_request (hdrs : gmap string string) : Request :=
  {| method := "POST"; path := "/"; headers := hdrs;
     json_body := None; form_body := [] |}.


Definition demo_token_endpoint :=
  token_endpoint demo_sha256 demo_jwt_encode demo_b64decode demo_key demo_ttl.

Definition demo_dispatch :=
  dispatch demo_sha256 demo_hmac demo_jws_load demo_jwt_encode demo_b64decode
    demo_int demo_key demo_ttl.

Lemma demo_registry_reachable :
  registry demo_sha256 "default" "default-secret" demo_registry.
Proof. unfold demo_registry. apply registry_register, registry_init. Defined.

Example demo_token_response :
  demo_token_endpoint demo_registry
    (token_request [("grant_type", "client_credentials");
                    ("client_id", "acme"); ("client_secret", "s3cr3t")])
    1000 "jti-1"
  = Return {| status_code := 200;
              content := dict_of [("access_token", VStr demo_token);
                                  ("token_type", VStr "Bearer");
                                  ("expires_in", VInt 3600);
                                  ("scope", VStr "a2a:travel-agent")];
              response_headers := ∅ |}.
Proof. vm_compute. reflexivity. Qed.

Example demo_protocol_without_header :
  ∃ r, demo_dispatch true demo_registry (protocol_request ∅) 1500 "" = Return (Respond r) ∧
       rejects r 401 "unauthorized".
Proof. eexists. split; [vm_compute; reflexivity|]. split; reflexivity. Qed.

Example demo_protocol_with_token :
  demo_dispatch true demo_registry
    (protocol_request {[ "authorization" := "Bearer acme.token" ]}) 1500 ""
  = Return (CallNext {| oauth2_client_id := Some (VStr "acme");
                        oauth2_scopes := Some (VList [VStr "a2a:travel-agent"]) |}).
Proof. vm_compute. reflexivity. Qed.

Example demo_protocol_expired_token :
  ∃ r, demo_dispatch true demo_registry
         (protocol_request {[ "authorization" := "Bearer acme.token" ]}) 4600 ""
       = Return (Respond r) ∧
       rejects r 401 "invalid_token".
Proof. eexists. split; [vm_compute; reflexivity|]. split; reflexivity. Qed.

Example demo_basic_auth :
  ∃ r, demo_token_endpoint demo_registry
         {| method := "POST"; path := "/oauth/token";
            headers := {[ "authorization" := "Basic acme:wrong" ]};
            json_body := None;
            form_body := [("grant_type", "client_credentials")] |} 1000 "jti-1"
       = Return r ∧ rejects r 401 "invalid_client".
Proof. eexists. split; [vm_compute; reflexivity|]. split; reflexivity. Qed.

(** A JSON body that is not an object makes the endpoint raise. *)
Example demo_json_array_body :
  ∃ e, demo_token_endpoint demo_registry
         {| method := "POST"; path := "/oauth/token";
            headers := {[ "content-type" := "application/json" ]};
            json_body := Some (VList []);
            form_body := [] |} 1000 "jti-1"
       = Raise e.
Proof. eexists. vm_compute. reflexivity. Qed.

Lemma token_round_trip_witness :
  ∃ token claims granted,
    generate_access_token demo_jwt_encode demo_key demo_ttl
      demo_client None 1000 "jti-1" !! "access_token" = Some (VStr token) ∧
    validate_access_token demo_hmac demo_jws_load demo_int demo_key 1500 token
    = Return (Some claims) ∧
    claims !! "client_id" = Some (VStr "acme") ∧
    claims !! "scopes" = Some (VList (VStr <$> granted)) ∧
    granted ⊆ scopes demo_client.
Proof.
  apply (token_round_trip demo_sha256 demo_hmac demo_jws_load demo_jwt_encode
           demo_int demo_key demo_ttl "default" "default-secret"
           demo_registry "acme" "s3cr3t" demo_client None 1000 "jti-1" 1500).
  - exact demo_registry_reachable.
  - vm_compute. reflexivity.
  - exists "acme". vm_compute. reflexivity.
  - unfold demo_ttl. lia.
Defined.


(** The token above is signed and has expired at clock 4600. *)
Example demo_token_expired :
  expired demo_jws_load demo_int 4600 demo_token ∧
  validate_access_token demo_hmac demo_jws_load demo_int demo_key 4600
    demo_token = Return None.
Proof.
  split; [|vm_compute; reflexivity].
  eexists _, _, _. split; [vm_compute; reflexivity|].
  split; [vm_compute; reflexivity|]. split; [reflexivity|]. simpl. lia.
Qed.

(** A JSON body whose [client_id] is a number: the lookup finds no
    client under it. *)
Definition numeric_client_request : Request :=
  {| method := "POST"; path := "/oauth/token";
     headers := {[ "content-type" := "application/json" ]};
     json_body := Some (VDict [("grant_type", VStr "client_credentials");
                               ("client_id", VInt 7);
                               ("client_secret", VStr "s3cr3t")]);
     form_body := [] |}.

Example demo_numeric_client_id :
  ∃ r, demo_token_endpoint demo_registry numeric_client_request 1000 "jti-1"
       = Return r ∧ rejects r 401 "invalid_client".
Proof. eexists. split; [vm_compute; reflexivity|]. split; reflexivity. Qed.



End OAuth2.

(** ** a2a_protocol/executor.py *)

Module Executor.

(** [a2a.types.TaskState], the members the executor uses. *)
Inductive TaskState := submitted | working | completed | canceled | failed.

Definition is_terminal (s : TaskState) : bool :=
  match s with
  | completed | canceled | failed => true
  | submitted | working => false
  end.

(** A status update put on the event queue by [TaskUpdater.update_status],
    with the text of its agent message. *)
Record Event := { state : TaskState; message_text : string }.

(** Message parts as the extraction probes them: an attribute that is
    missing (or, for [root], falsy) is [None]. *)
Record Root := { root_text : option string }.
Record Part := { root : option Root; text : option string }.
Record Message := { parts : list Part }.

Record RequestContext := {
  task_id : string;
  context_id : option string;
  message : option Message
}.

(** One entry of [_contexts]. Turns are (role, content) pairs. *)
Record Context := {
  ctx_context_id : string;
  history : list (string * string);
  user_context : gmap string value
}.

(** [TravelAgentExecutor._extract_message_text]: the loop body, then the
    method. *)
Definition part_texts (part : Part) : list string :=
  match root part with
  | Some r =>
      match root_text r with
      | Some t => [t]
      | None => []
      end
  | None =>
      match text part with
      | Some t => [t]
      | None => []
      end
  end.

Definition _extract_message_text (message : option Message) : string :=
  match message with
  | None => ""
  | Some m =>
      match parts m with
      | [] => ""
      | ps => strip (join " " (ps ≫= part_texts))
      end
  end.

Section executor.

(** The travel agent. Of [TravelAgent] the executor reads and writes
    [user_context]; the conversation handler's and the AI service's own
    state is [agent_state]. [extract] is the part of
    [ConversationHandler.extract_context] that reads the message: the
    attributes it assigns, which do not depend on the context passed in.
    [respond] is the rest of [process_message]: the reply, or the
    exception, computed from the message, the updated context and the
    agent's state. *)
Variable agent_state : Type.
Variable extract : string → outcome (gmap string value).
Variable respond :
  string → gmap string value → agent_state → outcome string * agent_state.
Variable reset_state : agent_state → agent_state.

Record TravelAgent := {
  agent_user_context : gmap string value;
  agent_internal : agent_state
}.

(** [ConversationHandler.extract_context]: a copy of the current context
    with the message's attributes assigned over it. *)
Definition extract_context (message : string)
  (current_context : gmap string value) : outcome (gmap string value) :=
  obind (extract message) (λ found, Return (found ∪ current_context)).

(** [TravelAgent.process_message] *)
Definition process_message (user_message : string) (agent : TravelAgent)
  : outcome string * TravelAgent :=
  match extract_context user_message (agent_user_context agent) with
  | Raise e => (Raise e, agent)
  | Return ctx =>
      let '(r, st) := respond user_message ctx (agent_internal agent) in
      (r, {| agent_user_context := ctx; agent_internal := st |})
  end.

(** [TravelAgent.reset_conversation] *)
Definition reset_conversation (agent : TravelAgent) : TravelAgent :=
  {| agent_user_context := ∅;
     agent_internal := reset_state (agent_internal agent) |}.

(** [TravelAgentExecutor]: the one agent all requests share, and the
    table of conversation contexts. A context dictionary lives in the
    table under its id, and the methods that take or return one refer to
    it by that key. *)
Record TravelAgentExecutor := {
  travel_agent : TravelAgent;
  _contexts : gmap string Context
}.

(** [TravelAgentExecutor.__init__] *)
Definition create_executor (st : agent_state) : TravelAgentExecutor :=
  {| travel_agent := {| agent_user_context := ∅; agent_internal := st |};
     _contexts := ∅ |}.

(** [_get_or_create_context]; [uuid] is the value [uuid.uuid4()] yields
    if it is called. Returns the key of the context. *)
Definition _get_or_create_context (uuid : string) (context_id : option string)
  (self : TravelAgentExecutor) : string * TravelAgentExecutor :=
  let context_id :=
    match context_id with
    | None => uuid
    | Some c => if String.eqb c "" then uuid else c
    end in
  match _contexts self !! context_id with
  | Some _ => (context_id, self)
  | None =>
      (context_id,
       {| travel_agent := travel_agent self;
          _contexts := <[context_id :=
                          {| ctx_context_id := context_id;
                             history := [];
                             user_context := ∅ |}]> (_contexts self) |})
  end.

Definition append_history (turn : string * string) (c : Context) : Context :=
  {| ctx_context_id := ctx_context_id c;
     history := history c ++ [turn];
     user_context := user_context c |}.

Definition set_user_context (uc : gmap string value) (c : Context) : Context :=
  {| ctx_context_id := ctx_context_id c;
     history := history c;
     user_context := uc |}.

(** [dict.update]: the argument's entries win. *)
Definition dict_update {A} (d other : gmap string A) : gmap string A := other ∪ d.

(** Lines 194-195 of [_process_message]: a stored context that is not
    empty is merged into the agent's. *)
Definition restore_user_context (conversation_context : Context)
  (agent : TravelAgent) : TravelAgent :=
  if (size (user_context conversation_context) =? 0)%nat then agent
  else {| agent_user_context :=
            dict_update (agent_user_context agent)
                        (user_context conversation_context);
          agent_internal := agent_internal agent |}.

(** [_process_message]; [key] refers to the conversation context. A key
    without an entry would be a [KeyError]; [execute] never passes one. *)
Definition _process_message (user_message : string) (key : string)
  (self : TravelAgentExecutor) : outcome string * TravelAgentExecutor :=
  match _contexts self !! key with
  | None => (Raise (PyExn "KeyError" key), self)
  | Some conversation_context =>
      let contexts1 :=
        alter (append_history ("user", user_message)) key (_contexts self) in
      let agent1 := restore_user_context conversation_context (travel_agent self) in
      match process_message user_message agent1 with
      | (Raise e, agent2) =>
          (Raise e, {| travel_agent := agent2; _contexts := contexts1 |})
      | (Return response, agent2) =>
          let contexts2 :=
            alter (set_user_context (agent_user_context agent2)) key contexts1 in
          let contexts3 :=
            alter (append_history ("agent", response)) key contexts2 in
          (Return response, {| travel_agent := agent2; _contexts := contexts3 |})
      end
  end.

(** [TaskUpdater.update_status], for the updater [execute] and [cancel]
    build with [context.context_id]. The status event it puts on the
    queue is a pydantic model whose context id is a required string: a
    request without one makes the construction of the event raise
    [ValidationError], and nothing reaches the queue. An updater also
    refuses a second terminal status; no updater here is asked for
    one. *)
Definition ValidationError : exn :=
  PyExn "ValidationError" "1 validation error for TaskStatusUpdateEvent".

Definition update_status (context_id : option string) (s : TaskState)
  (msg : string) (event_queue : list Event) : outcome () * list Event :=
  match context_id with
  | Some _ =>
      (Return (),
       (event_queue ++ [{| state := s; message_text := msg |}])%list)
  | None => (Raise ValidationError, event_queue)
  end.

Definition no_message_reply : string :=
  "I didn't receive a message. Please send your travel question or request.".

(** The body of the [try] in [execute], from the key of the context. *)
Definition execute_try (key : string) (context : RequestContext)
  (self : TravelAgentExecutor) (event_queue : list Event)
  : outcome () * TravelAgentExecutor * list Event :=
  match update_status (context_id context) working
          "Processing your travel request..." event_queue with
  | (Raise e, event_queue) => (Raise e, self, event_queue)
  | (Return _, event_queue) =>
      let user_message := _extract_message_text (message context) in
      if String.eqb user_message "" then
        let '(r, event_queue) :=
          update_status (context_id context) completed no_message_reply
            event_queue in
        (r, self, event_queue)
      else
        match _process_message user_message key self with
        | (Raise e, self) => (Raise e, self, event_queue)
        | (Return response, self) =>
            let '(r, event_queue) :=
              update_status (context_id context) completed response
                event_queue in
            (r, self, event_queue)
        end
  end.

(** [TravelAgentExecutor.execute]: the updater is built from the
    request's own [context_id], the conversation context from the id
    [_get_or_create_context] resolves it to; whatever the [try] raises
    is reported through the same updater. *)
Definition execute (uuid : string) (context : RequestContext)
  (self : TravelAgentExecutor) (event_queue : list Event)
  : outcome () * TravelAgentExecutor * list Event :=
  let '(key, self) := _get_or_create_context uuid (context_id context) self in
  match execute_try key context self event_queue with
  | (Raise e, self, event_queue) =>
      let error_message :=
        "I encountered an error processing your request: " +:+ exn_msg e in
      let '(r, event_queue) :=
        update_status (context_id context) failed error_message event_queue in
      (r, self, event_queue)
  | returned => returned
  end.

(** [TravelAgentExecutor.cancel] *)
Definition cancel (context : RequestContext) (event_queue : list Event)
  : outcome () * list Event :=
  update_status (context_id context) canceled "Request cancelled." event_queue.

(** [del d[k]] *)
Definition dict_del {A} (k : string) (d : gmap string A) : outcome (gmap string A) :=
  match d !! k with
  | Some _ => Return (delete k d)
  | None => Raise (PyExn "KeyError" k)
  end.

(** [TravelAgentExecutor.clear_context] *)
Definition clear_context (context_id : string) (self : TravelAgentExecutor)
  : outcome TravelAgentExecutor :=
  obind
    (if bool_decide (context_id ∈ dom (_contexts self))
     then dict_del context_id (_contexts self)
     else Return (_contexts self))
    (λ contexts,
      Return {| travel_agent := reset_conversation (travel_agent self);
                _contexts := contexts |}).

(** *** Properties of the context table *)

Definition fresh_context (key : string) : Context :=
  {| ctx_context_id := key; history := []; user_context := ∅ |}.

(** The key [_get_or_create_context] resolves an id to. *)
Definition resolved_id (uuid : string) (context_id : option string) : string :=
  match context_id with
  | None => uuid
  | Some c => if String.eqb c "" then uuid else c
  end.

Lemma _get_or_create_context_spec uuid context_id self :
  _get_or_create_context uuid context_id self
  = (resolved_id uuid context_id,
     {| travel_agent := travel_agent self;
        _contexts :=
          match _contexts self !! resolved_id uuid context_id with
          | Some _ => _contexts self
          | None => <[resolved_id uuid context_id :=
                        fresh_context (resolved_id uuid context_id)]> (_contexts self)
          end |}).
Proof.
  unfold _get_or_create_context. fold (resolved_id uuid context_id).
  destruct (_contexts self !! resolved_id uuid context_id); [|done].
  by destruct self.
Qed.

Lemma alter_lookup_insert {A} (f : A → A) (k : string) (m : gmap string A) x :
  m !! k = Some x → alter f k m = <[k := f x]> m.
Proof.
  intros Hk. apply map_eq. intros i. rewrite lookup_alter.
  destruct (decide (k = i)) as [->|].
  - by rewrite Hk, lookup_insert_eq.
  - by rewrite lookup_insert_ne.
Qed.

(** [_process_message] on a key that has an entry, the table written
    with inserts. *)
Lemma _process_message_spec user_message key self c :
  _contexts self !! key = Some c →
  _process_message user_message key self
  = match process_message user_message
            (restore_user_context c (travel_agent self)) with
    | (Raise e, agent2) =>
        (Raise e,
         {| travel_agent := agent2;
            _contexts := <[key := append_history ("user", user_message) c]>
                           (_contexts self) |})
    | (Return response, agent2) =>
        (Return response,
         {| travel_agent := agent2;
            _contexts :=
              <[key := {| ctx_context_id := ctx_context_id c;
                          history := history c ++ [("user", user_message);
                                                   ("agent", response)];
                          user_context := agent_user_context agent2 |}]>
                (_contexts self) |})
    end.
Proof.
  intros Hk. unfold _process_message. rewrite Hk.
  destruct (process_message _ _) as [[response|e] agent2].
  - f_equal. f_equal. apply map_eq. intros i.
    destruct (decide (key = i)) as [->|Hne].
    + rewrite !lookup_alter_eq, lookup_insert_eq, Hk. simpl.
      unfold append_history, set_user_context. simpl.
      by rewrite <- app_assoc.
    + by rewrite !lookup_alter_ne, lookup_insert_ne.
  - f_equal. f_equal. by apply alter_lookup_insert.
Qed.

(** Whether the business layer raises on this request. *)
Definition business_raises (uuid : string) (context : RequestContext)
  (self : TravelAgentExecutor) : bool :=
  let user_message := _extract_message_text (message context) in
  let c := default (fresh_context (resolved_id uuid (context_id context)))
             (_contexts self !! resolved_id uuid (context_id context)) in
  if String.eqb user_message "" then false
  else match process_message user_message
               (restore_user_context c (travel_agent self)) with
       | (Raise _, _) => true
       | (Return _, _) => false
       end.



(** X26. The terminal guarantee for requests that carry a context id.
    [execute] returns normally, having put exactly two status updates
    on the queue: [working], then one terminal status, which is
    [failed] when the business layer raised and [completed] otherwise
    (a reply, or no text in the message). *)
Theorem execute_terminal_status uuid context self event_queue :
  is_Some (context_id context) →
  ∃ self' final reply,
    execute uuid context self event_queue
    = (Return (), self',
       (event_queue ++ [ {| state := working;
                            message_text := "Processing your travel request..." |};
                         {| state := final; message_text := reply |} ])%list) ∧
    is_terminal final = true ∧
    final = (if business_raises uuid context self then failed else completed).
Proof.
  intros [cid Hid].
  unfold execute, business_raises. rewrite _get_or_create_context_spec.
  set (key := resolved_id uuid (context_id context)).
  set (self1 := Build_TravelAgentExecutor _ _).
  assert (_contexts self1 !! key
          = Some (default (fresh_context key) (_contexts self !! key))) as Hk.
  { subst self1. simpl. destruct (_contexts self !! key) eqn:E; simpl; [done|].
    apply lookup_insert_eq. }
  unfold execute_try, update_status. rewrite Hid.
  destruct (String.eqb (_extract_message_text (message context)) "").
  { eexists _, completed, _. rewrite <- app_assoc. by split. }
  rewrite (_process_message_spec _ _ _ _ Hk).
  change (travel_agent self1) with (travel_agent self).
  destruct (process_message _ _) as [[response|e] agent2].
  - eexists _, completed, _. rewrite <- app_assoc. by split.
  - eexists _, failed, _. rewrite <- app_assoc. by split.
Qed.

(** No text can be extracted from the request's message. *)
Definition no_text (context : RequestContext) : Prop :=
  match message context with
  | None => True
  | Some m =>
      parts m = [] ∨ strip (join " " (parts m ≫= part_texts)) = ""
  end.

Lemma no_text_extract context :
  no_text context ↔ _extract_message_text (message context) = "".
Proof.
  unfold no_text, _extract_message_text.
  destruct (message context) as [m|]; [|done].
  destruct (parts m) as [|p ps] eqn:Hp; [by split; auto|].
  split; [by intros [|]|auto].
Qed.

(** X27. The empty-input outcome for requests that carry a context
    id. When no text can be extracted (no message, no parts, or parts
    whose texts joined by spaces and stripped of whitespace are empty),
    [execute] puts [working] and then [completed] on the queue, the
    latter with the fixed, non-empty clarifying reply; the agent is
    left as it was, and no conversation context gains a turn: an
    existing context is unchanged and a context created for the request
    has an empty history. *)
Theorem empty_input_completed uuid context self event_queue :
  is_Some (context_id context) →
  no_text context →
  ∃ self',
    execute uuid context self event_queue
    = (Return (), self',
       (event_queue ++ [ {| state := working;
                            message_text := "Processing your travel request..." |};
                         {| state := completed;
                            message_text := no_message_reply |} ])%list) ∧
    no_message_reply ≠ "" ∧
    travel_agent self' = travel_agent self ∧
    (∀ k c, _contexts self !! k = Some c → _contexts self' !! k = Some c) ∧
    (∀ k c, _contexts self' !! k = Some c →
            _contexts self !! k = Some c ∨
            (_contexts self !! k = None ∧ history c = [])).
Proof.
  intros [cid Hid] Hno%no_text_extract.
  unfold execute. rewrite _get_or_create_context_spec.
  set (key := resolved_id uuid (context_id context)).
  unfold execute_try, update_status. rewrite Hid, Hno. simpl.
  eexists. split; [by rewrite <- app_assoc|].
  split; [done|]. split; [done|].
  destruct (_contexts self !! key) eqn:Hk; simpl; [by auto|].
  split.
  - intros k c Hc. rewrite lookup_insert_ne; [done|]. congruence.
  - intros k c. rewrite lookup_insert.
    case_decide as Heq; [|by auto].
    subst k. intros [= <-]. by right.
Qed.

(** C10 (reset frame property). [clear_context] returns normally. The
    entry of every other id is what it was; the id given has no entry
    afterwards; with an id that had none the table is unchanged; and
    resolving the cleared id next yields a context with empty history
    and no attributes (for the empty id, which resolves to a generated
    one, when the generated id is unused). *)
Theorem clear_context_frame id self :
  ∃ self',
    clear_context id self = Return self' ∧
    (∀ k, k ≠ id → _contexts self' !! k = _contexts self !! k) ∧
    _contexts self' !! id = None ∧
    (_contexts self !! id = None → _contexts self' = _contexts self) ∧
    (∀ uuid, id ≠ "" ∨ _contexts self' !! uuid = None →
       ∃ c, _contexts (_get_or_create_context uuid (Some id) self').2
              !! (_get_or_create_context uuid (Some id) self').1 = Some c ∧
            history c = [] ∧ user_context c = ∅).
Proof.
  unfold clear_context, dict_del.
  assert (∃ contexts,
    (if bool_decide (id ∈ dom (_contexts self))
     then match _contexts self !! id with
          | Some _ => Return (delete id (_contexts self))
          | None => Raise (PyExn "KeyError" id)
          end
     else Return (_contexts self)) = Return contexts ∧
    contexts = delete id (_contexts self)) as (contexts & -> & ->).
  { case_bool_decide as Hin.
    - apply elem_of_dom in Hin as [c ->]. eauto.
    - apply not_elem_of_dom in Hin. eexists. split; [done|].
      by rewrite delete_id. }
  simpl. eexists. split; [done|]. simpl.
  split; [intros k Hk; by rewrite lookup_delete_ne|].
  split; [apply lookup_delete_eq|].
  split; [apply delete_id|].
  intros uuid Hfresh. rewrite _get_or_create_context_spec.
  cbn [fst snd _contexts].
  assert (delete id (_contexts self) !! resolved_id uuid (Some id) = None) as ->.
  { unfold resolved_id. destruct (String.eqb id "") eqn:He.
    - apply String.eqb_eq in He. destruct Hfresh as [|Hf]; [done|]. exact Hf.
    - apply lookup_delete_eq. }
  rewrite lookup_insert_eq. by eexists.
Qed.

(** *** Restoring the agent's context *)

Lemma restore_fresh key agent :
  restore_user_context (fresh_context key) agent = agent.
Proof. unfold restore_user_context. simpl. by rewrite map_size_empty. Qed.

Lemma restore_internal c agent :
  agent_internal (restore_user_context c agent) = agent_internal agent.
Proof. unfold restore_user_context. by destruct (size _ =? 0)%nat. Qed.

(** *** A session that is new to the table *)

(** The context a new session starts with. *)
Lemma new_session_empty uuid context_id self :
  _contexts self !! resolved_id uuid context_id = None →
  _contexts (_get_or_create_context uuid context_id self).2
    !! (_get_or_create_context uuid context_id self).1
  = Some (fresh_context (resolved_id uuid context_id)).
Proof.
  intros Hnew. rewrite _get_or_create_context_spec. cbn [fst snd _contexts].
  rewrite Hnew. apply lookup_insert_eq.
Qed.

(** The context the business layer is called with for the first message
    of a new session: the message's attributes over whatever the shared
    agent holds from the requests handled before. *)
Lemma new_session_business_context uuid context self q found r st :
  is_Some (context_id context) →
  _contexts self !! resolved_id uuid (context_id context) = None →
  _extract_message_text (message context) ≠ "" →
  extract (_extract_message_text (message context)) = Return found →
  respond (_extract_message_text (message context))
    (found ∪ agent_user_context (travel_agent self))
    (agent_internal (travel_agent self)) = (r, st) →
  ∃ self' q',
    execute uuid context self q = (Return (), self', q') ∧
    travel_agent self'
    = {| agent_user_context := found ∪ agent_user_context (travel_agent self);
         agent_internal := st |}.
Proof.
  intros [cid Hid] Hnew Htext Hfound Hresp.
  unfold execute. rewrite _get_or_create_context_spec, Hnew.
  set (key := resolved_id uuid (context_id context)).
  unfold execute_try, update_status. rewrite Hid.
  apply String.eqb_neq in Htext. rewrite Htext.
  rewrite (_process_message_spec _ _ _ (fresh_context key))
    by apply lookup_insert_eq.
  rewrite restore_fresh. cbn [travel_agent].
  unfold process_message, extract_context. rewrite Hfound. cbn [obind].
  rewrite Hresp. destruct r; by eexists _, _.
Qed.

End executor.

(** *** The specification's scenarios, run

    An instance of the business layer: of [extract_context], the rules
    for the destination and for the accommodation; a reply that names
    the destination in the context; an exception for a message that
    mentions a crash; and, as the agent's own state, the number of
    replies produced. *)

Definition lower_ascii (c : ascii) : ascii :=
  let n := nat_of_ascii c in
  if (65 <=? n)%nat && (n <=? 90)%nat then ascii_of_nat (n + 32) else c.

Fixpoint lower (s : string) : string :=
  match s with
  | EmptyString => EmptyString
  | String c s' => String (lower_ascii c) (lower s')
  end.

Definition destinations : list (string * string) :=
  [("paris", "Paris"); ("tokyo", "Tokyo"); ("new york", "New York");
   ("london", "London"); ("rome", "Rome"); ("barcelona", "Barcelona");
   ("dubai", "Dubai"); ("singapore", "Singapore"); ("sydney", "Sydney");
   ("bali", "Bali"); ("amsterdam", "Amsterdam"); ("berlin", "Berlin");
   ("lisbon", "Lisbon"); ("prague", "Prague"); ("bangkok", "Bangkok")].

Definition demo_extract (user_message : string) : outcome (gmap string value) :=
  let message_lower := lower user_message in
  let destination : gmap string value :=
    match List.find (λ d, contains d.1 message_lower) destinations with
    | Some d => {[ "destination" := VStr d.2 ]}
    | None => ∅
    end in
  let accommodation : gmap string value :=
    if contains "hotel" message_lower then {[ "accommodation_type" := VStr "hotel" ]}
    else if contains "hostel" message_lower then {[ "accommodation_type" := VStr "hostel" ]}
    else if contains "airbnb" message_lower || contains "vacation rental" message_lower
    then {[ "accommodation_type" := VStr "vacation_rental" ]}
    else if contains "resort" message_lower then {[ "accommodation_type" := VStr "resort" ]}
    else ∅ in
  Return (accommodation ∪ destination).

Definition demo_respond (user_message : string) (ctx : gmap string value)
  (replies : nat) : outcome string * nat :=
  if contains "crash" (lower user_message)
  then (Raise (PyExn "RuntimeError" "upstream failure"), replies)
  else
    (Return match ctx !! "destination" with
            | Some (VStr d) => "Planning your trip to " +:+ d
            | _ => "Where would you like to go?"
            end,
     S replies).

Definition demo_execute := execute nat demo_extract demo_respond.

Definition text_message (t : string) : option Message :=
  Some {| parts := [ {| root := Some {| root_text := Some t |}; text := None |} ] |}.

Definition request (id : option string) (t : string) : RequestContext :=
  {| task_id := "task"; context_id := id; message := text_message t |}.

Definition new_executor : TravelAgentExecutor nat := create_executor nat 0%nat.

(** The executor and the queue after a first request. *)
Definition after (uuid : string) (first : RequestContext)
  : TravelAgentExecutor nat * list Event :=
  let '(_, self, q) := demo_execute uuid first new_executor [] in (self, q).

Example demo_hello :
  (demo_execute "u1" (request (Some "s1") "hello") new_executor []).2
  = [ {| state := working; message_text := "Processing your travel request..." |};
      {| state := completed; message_text := "Where would you like to go?" |} ].
Proof. vm_compute. reflexivity. Qed.

Example demo_crash :
  (demo_execute "u1" (request (Some "s1") "crash now") new_executor []).2
  = [ {| state := working; message_text := "Processing your travel request..." |};
      {| state := failed;
         message_text :=
           "I encountered an error processing your request: upstream failure" |} ].
Proof. vm_compute. reflexivity. Qed.

Example demo_two_data_parts :
  _extract_message_text
    (Some {| parts := [ {| root := Some {| root_text := None |}; text := None |};
                        {| root := None; text := Some "  " |} ] |}) = "".
Proof. reflexivity. Qed.

(** A message of whitespace only, from beyond ASCII too. *)
Definition blank_message : option Message :=
  Some {| parts := [ {| root := None; text := Some (" " +:+ nbsp) |};
                     {| root := Some {| root_text := Some em_space |};
                        text := None |} ] |}.

Lemma execute_terminal_status_witness :
  ∃ self' final reply,
    demo_execute "u1" (request (Some "s1") "crash now") new_executor []
    = (Return (), self',
       [ {| state := working; message_text := "Processing your travel request..." |};
         {| state := final; message_text := reply |} ]) ∧
    is_terminal final = true ∧
    final = (if business_raises nat demo_extract demo_respond "u1"
                  (request (Some "s1") "crash now") new_executor
             then failed else completed).
Proof.
  apply (execute_terminal_status nat demo_extract demo_respond "u1"
           (request (Some "s1") "crash now") new_executor []).
  by eexists.
Defined.

Lemma empty_input_completed_witness :
  ∃ self',
    demo_execute "u1"
      {| task_id := "task"; context_id := Some "s1"; message := blank_message |}
      new_executor []
    = (Return (), self',
       [ {| state := working; message_text := "Processing your travel request..." |};
         {| state := completed; message_text := no_message_reply |} ]) ∧
    no_message_reply ≠ "" ∧
    travel_agent nat self' = travel_agent nat new_executor ∧
    (∀ k c, _contexts nat new_executor !! k = Some c → _contexts nat self' !! k = Some c) ∧
    (∀ k c, _contexts nat self' !! k = Some c →
            _contexts nat new_executor !! k = Some c ∨
            (_contexts nat new_executor !! k = None ∧ history c = [])).
Proof.
  apply (empty_input_completed nat demo_extract demo_respond "u1"
           {| task_id := "task"; context_id := Some "s1";
              message := blank_message |}
           new_executor []).
  - by eexists.
  - right. reflexivity.
Defined.



(** C9, at a concrete input. The request [hello] opens session [s2],
    which the table does not hold. Handled by a new executor, the
    business layer sees no attribute and asks for a destination.
    Handled after a request of session [s1] that named Paris, it sees
    the destination of [s1], stores it in [s2], and replies about
    Paris. *)
Theorem new_session_sees_other_session :
  let hello := request (Some "s2") "hello" in
  let paris := request (Some "s1") "I want to visit Paris" in
  _contexts nat new_executor !! "s2" = None ∧
  _contexts nat (after "u1" paris).1 !! "s2" = None ∧
  demo_execute "u2" hello new_executor []
  = (Return (),
     {| travel_agent := {| agent_user_context := ∅; agent_internal := 1%nat |};
        _contexts :=
          {[ "s2" := {| ctx_context_id := "s2";
                        history := [("user", "hello");
                                    ("agent", "Where would you like to go?")];
                        user_context := ∅ |} ]} |},
     [ {| state := working; message_text := "Processing your travel request..." |};
       {| state := completed; message_text := "Where would you like to go?" |} ]) ∧
  (demo_execute "u2" hello (after "u1" paris).1 []).2
  = [ {| state := working; message_text := "Processing your travel request..." |};
      {| state := completed; message_text := "Planning your trip to Paris" |} ] ∧
  user_context <$> (_contexts nat (demo_execute "u2" hello (after "u1" paris).1 []).1.2
                      !! "s2")
  = Some {[ "destination" := VStr "Paris" ]}.
Proof. repeat split; vm_compute; reflexivity. Qed.

End Executor.


(** ** More of a2a_protocol/oauth2.py: registration, the endpoint's
    credentials and responses, and tokens in use *)

Module OAuth2Facts.

Import OAuth2.

(** *** Scope strings *)

(** No whitespace character begins anywhere in the string. *)
Fixpoint no_space (s : string) : bool :=
  match s with
  | EmptyString => true
  | String c s' => (space_width s =? 0)%nat && no_space s'
  end.

(** A scope name that survives in a space-separated list: not empty,
    and free of whitespace. *)
Definition scope_name (s : string) : Prop := s ≠ "" ∧ no_space s = true.

Lemma rev_app_rev_app (t acc acc' : string) :
  String.rev_app (String.rev_app t acc) acc' = String.rev_app acc (t +:+ acc').
Proof.
  revert acc acc'. induction t as [|c t IH]; intros acc acc'; [done|].
  cbn [String.rev_app]. rewrite IH. reflexivity.
Qed.

Lemma rev_rev (s : string) : String.rev (String.rev s) = s.
Proof. unfold String.rev. rewrite rev_app_rev_app. apply append_nil_r. Qed.

Lemma py_isspace2_space c : py_isspace2 c " " = false.
Proof. unfold py_isspace2. cbn. apply andb_false_r. Qed.

Lemma py_isspace3_space_2 c e : py_isspace3 c " " e = false.
Proof.
  unfold py_isspace3. cbn [Ascii.eqb Bool.eqb].
  by rewrite !andb_false_r.
Qed.

Lemma py_isspace3_space_3 c d : py_isspace3 c d " " = false.
Proof.
  unfold py_isspace3. cbn.
  by rewrite !andb_false_r.
Qed.

(** What follows a string leaves its first character as it is, when it
    is nothing or begins with a space. *)
Definition neutral (rest : string) : Prop :=
  ∀ x, x ≠ "" → space_width (x +:+ rest) = space_width x.

Lemma neutral_empty : neutral "".
Proof. intros x _. by rewrite append_nil_r. Qed.

Lemma neutral_space r : neutral (String " " r).
Proof.
  intros [|c [|d [|e x3]]] Hx; [done|..]; rewrite ?append_cons;
    change ("" +:+ String " " r) with (String " " r); cbn [space_width].
  - rewrite py_isspace2_space. destruct r; [done|].
    by rewrite py_isspace3_space_2.
  - by rewrite py_isspace3_space_3.
  - done.
Qed.

Lemma split_go_word t acc rest :
  neutral rest → no_space t = true →
  split_go (Some acc) (t +:+ rest) = split_go (Some (String.rev_app t acc)) rest.
Proof.
  intros Hrest. revert acc. induction t as [|c t IH]; intros acc Hns; [done|].
  cbn [no_space] in Hns. apply andb_true_iff in Hns as [Hc%Nat.eqb_eq Ht].
  rewrite <- (Hrest (String c t)) in Hc by done.
  rewrite append_cons in Hc |- *.
  cbn [split_go]. rewrite Hc. cbn [from_option id String.rev_app].
  by apply IH.
Qed.

Lemma split_go_first t rest :
  neutral rest → scope_name t →
  split_go None (t +:+ rest) = split_go (Some (String.rev t)) rest.
Proof.
  intros Hrest [Hne Hns]. destruct t as [|c t]; [done|].
  cbn [no_space] in Hns. apply andb_true_iff in Hns as [Hc%Nat.eqb_eq Ht].
  rewrite <- (Hrest (String c t)) in Hc by done.
  rewrite append_cons in Hc |- *.
  cbn [split_go]. rewrite Hc. cbn [from_option id].
  by rewrite split_go_word.
Qed.

(** Splitting the space-joined list of scope names gives the list back. *)
Lemma split_join (l : list string) :
  Forall scope_name l → split (join " " l) = l.
Proof.
  unfold split, join. induction 1 as [|t l Ht Hl IH]; [done|].
  destruct l as [|t' l].
  - cbn [String.concat]. rewrite <- (append_nil_r t) at 1.
    rewrite split_go_first by (done || apply neutral_empty).
    cbn. by rewrite rev_rev.
  - change (String.concat " " (t :: t' :: l))
      with (t +:+ String " " (String.concat " " (t' :: l))).
    rewrite split_go_first by (done || apply neutral_space).
    cbn [split_go space_width py_isspace].
    cbn [fmap option_fmap option_map option_list app].
    by rewrite rev_rev, IH.
Qed.

Lemma filter_all {A} (P : A → Prop) `{!∀ x, Decision (P x)} (l : list A) :
  (∀ x, x ∈ l → P x) → filter P l = l.
Proof.
  induction l as [|x l IH]; intros Hall; [done|].
  rewrite filter_cons, decide_True by (apply Hall; left).
  rewrite IH; [done|]. intros y Hy. apply Hall. by right.
Qed.

Lemma join_nonempty t (l : list string) :
  t ≠ "" → join " " (t :: l) ≠ "".
Proof.
  intros Ht. unfold join. destruct l as [|t' l]; [done|].
  destruct t; [done|]. discriminate.
Qed.

Section facts.

Variable sha256_hexdigest : string → string.
Variable hmac_sha256 : string → string → string.
Variable jws_load : string → option jws.
Variable jwt_encode : gmap string value → string → string → string.
Variable b64decode_utf8 : string → option string.
Variable int_of_str : string → option Z.
Variable JWT_SECRET_KEY : string.
Variable TOKEN_EXPIRY_SECONDS : Z.
Variable DEFAULT_CLIENT_ID : string.
Variable DEFAULT_CLIENT_SECRET : string.

Local Abbreviation register_client := (OAuth2.register_client sha256_hexdigest).
Local Abbreviation validate_client := (OAuth2.validate_client sha256_hexdigest).
Local Abbreviation registry :=
  (OAuth2.registry sha256_hexdigest DEFAULT_CLIENT_ID DEFAULT_CLIENT_SECRET).
Local Abbreviation token_payload := (OAuth2.token_payload TOKEN_EXPIRY_SECONDS).
Local Abbreviation generate_access_token :=
  (OAuth2.generate_access_token jwt_encode JWT_SECRET_KEY TOKEN_EXPIRY_SECONDS).
Local Abbreviation validate_access_token :=
  (OAuth2.validate_access_token hmac_sha256 jws_load int_of_str JWT_SECRET_KEY).
Local Abbreviation jwt_codec_ok :=
  (OAuth2.jwt_codec_ok hmac_sha256 jws_load jwt_encode JWT_SECRET_KEY).
Local Abbreviation basic_auth_credentials :=
  (OAuth2.basic_auth_credentials b64decode_utf8).
Local Abbreviation credentials := (OAuth2.credentials b64decode_utf8).
Local Abbreviation token_endpoint :=
  (OAuth2.token_endpoint sha256_hexdigest jwt_encode b64decode_utf8
     JWT_SECRET_KEY TOKEN_EXPIRY_SECONDS).
Local Abbreviation dispatch :=
  (OAuth2.dispatch sha256_hexdigest hmac_sha256 jws_load jwt_encode
     b64decode_utf8 int_of_str JWT_SECRET_KEY TOKEN_EXPIRY_SECONDS).

(** X1. Registration overwrites. After [register_client] the id maps to
    the client just built, every other id maps to what it did, the
    secret given validates to that client, and any secret with another
    hash, a previous one of the same id included, is refused. *)
Theorem register_client_overwrites reg now cid secret nm scs :
  get_client (register_client reg now cid secret nm scs).2 cid
  = Some (register_client reg now cid secret nm scs).1 ∧
  (∀ k, k ≠ cid →
     get_client (register_client reg now cid secret nm scs).2 k
     = get_client reg k) ∧
  validate_client (register_client reg now cid secret nm scs).2
    (VStr cid) (VStr secret)
  = Return (Some (register_client reg now cid secret nm scs).1) ∧
  (∀ other, sha256_hexdigest other ≠ sha256_hexdigest secret →
     validate_client (register_client reg now cid secret nm scs).2
       (VStr cid) (VStr other) = Return None).
Proof.
  unfold get_client, OAuth2.register_client. cbn [fst snd].
  split; [apply lookup_insert_eq|].
  split; [intros k Hk; by apply lookup_insert_ne|].
  split.
  - unfold OAuth2.validate_client. cbn [hashable negb].
    rewrite lookup_insert_eq. cbn. by rewrite String.eqb_refl.
  - intros other Hother. unfold OAuth2.validate_client. cbn [hashable negb].
    rewrite lookup_insert_eq. cbn.
    destruct (String.eqb (sha256_hexdigest secret) (sha256_hexdigest other)) eqn:E;
      [|done].
    apply String.eqb_eq in E. congruence.
Qed.





(** The request with its [Authorization] header set, or removed. *)
Definition with_authorization (h : option string) (request : Request) : Request :=
  {| method := method request;
     path := path request;
     headers := match h with
                | Some v => <["authorization" := v]> (headers request)
                | None => delete "authorization" (headers request)
                end;
     json_body := json_body request;
     form_body := form_body request |}.

Lemma parse_body_with_authorization h request :
  parse_body (with_authorization h request) = parse_body request.
Proof.
  unfold parse_body, with_authorization. cbn [headers json_body form_body].
  assert ((match h with
           | Some v => <["authorization" := v]> (headers request)
           | None => delete "authorization" (headers request)
           end) !! "content-type" = headers request !! "content-type") as ->;
    [|done].
  destruct h; [by rewrite lookup_insert_ne|by rewrite lookup_delete_ne].
Qed.

(** X3. Credentials in the body take precedence. When the body carries
    a non-empty [client_id] and [client_secret], the endpoint's answer
    does not depend on the [Authorization] header: a Basic header is
    not even decoded. *)
Theorem body_credentials_take_precedence reg request fields h now jti :
  parse_body request = inr (VDict fields) →
  truthy (dict_get "client_id" (dict_of fields)) = true →
  truthy (dict_get "client_secret" (dict_of fields)) = true →
  token_endpoint reg (with_authorization h request) now jti
  = token_endpoint reg request now jti.
Proof.
  intros Hp Hcid Hsecret. unfold OAuth2.token_endpoint.
  rewrite parse_body_with_authorization, Hp. cbn [body_get obind].
  unfold OAuth2.basic_auth_credentials.
  unfold dict_get in Hcid, Hsecret. unfold dict_get_default.
  by rewrite Hcid, Hsecret.
Qed.

(** The other case: a body that lacks either credential, and a Basic
    header that decodes to [id:secret], give the header's pair, the
    body's own [client_id] or [client_secret] dropped. *)
Lemma basic_credentials_replace_both request fields encoded decoded cid secret :
  truthy (dict_get "client_id" (dict_of fields)) = false ∨
  truthy (dict_get "client_secret" (dict_of fields)) = false →
  headers request !! "authorization" = Some ("Basic " +:+ encoded) →
  b64decode_utf8 encoded = Some decoded →
  split_colon decoded = Some (cid, secret) →
  credentials request fields = (VStr cid, VStr secret).
Proof.
  intros Hmiss Hh Hd Hs. unfold OAuth2.credentials, OAuth2.basic_auth_credentials.
  assert (negb (truthy (dict_get "client_id" (dict_of fields)))
          || negb (truthy (dict_get "client_secret" (dict_of fields))) = true) as ->.
  { destruct Hmiss as [-> | ->]; [done|]. by rewrite orb_true_r. }
  rewrite Hh. cbn [from_option id].
  assert (startswith "Basic " ("Basic " +:+ encoded) = true) as ->
    by by destruct encoded.
  change (drop_str 6 ("Basic " +:+ encoded)) with encoded.
  by rewrite Hd, Hs.
Qed.

(** The shapes of the endpoint's responses. *)
Definition token_response (r : JSONResponse) : Prop :=
  status_code r = 200 ∧
  (∃ token, content r !! "access_token" = Some (VStr token)) ∧
  content r !! "token_type" = Some (VStr "Bearer") ∧
  content r !! "expires_in" = Some (VInt TOKEN_EXPIRY_SECONDS) ∧
  (∃ scope, content r !! "scope" = Some (VStr scope)) ∧
  content r !! "error" = None.

Definition error_only (r : JSONResponse) (status : Z) (error : string) : Prop :=
  status_code r = status ∧
  content r !! "error" = Some (VStr error) ∧
  content r !! "access_token" = None.

(** X4. What the endpoint answers. Whenever [token_endpoint] returns,
    the response is the 200 token response (a token, type [Bearer], the
    configured lifetime, a scope string, no error), or one of 400
    [invalid_request], 400 [unsupported_grant_type] and 401
    [invalid_client], and those carry no token. *)
Theorem token_endpoint_responses reg request now jti r :
  token_endpoint reg request now jti = Return r →
  token_response r ∨
  error_only r 400 "invalid_request" ∨
  error_only r 400 "unsupported_grant_type" ∨
  error_only r 401 "invalid_client".
Proof.
  unfold OAuth2.token_endpoint.
  destruct (parse_body request) as [r'|body] eqn:Hp.
  { intros [= <-]. right. left. unfold parse_body in Hp.
    destruct (contains _ _); [|discriminate].
    destruct (json_body request); [discriminate|].
    injection Hp as <-. by repeat split. }
  destruct body as [| | | | |fields]; try discriminate.
  cbn [body_get obind].
  destruct (OAuth2.basic_auth_credentials _ _ _ _) as [cid secret].
  destruct (value_is_str _ _); cbn [negb];
    [|intros [= <-]; right; right; left; by repeat split].
  destruct (negb (truthy cid) || negb (truthy secret));
    [intros [= <-]; right; left; by repeat split|].
  destruct (validate_client reg cid secret) as [[c|]|]; cbn [obind];
    [|intros [= <-]; right; right; right; by repeat split|discriminate].
  destruct (requested_scopes_of _) as [requested|]; cbn [obind]; [|discriminate].
  intros [= <-]. left. unfold token_response. cbn [status_code content].
  destruct (generate_access_token_lookup jwt_encode JWT_SECRET_KEY
              TOKEN_EXPIRY_SECONDS c requested now jti) as (H1 & H2 & H3 & H4).
  repeat split; eauto.
Qed.

(** X5. The scope string read back. For a client whose allowed scopes
    are proper scope names, the [scope] string of a token response,
    sent as the [scope] of a later request, asks for exactly the scopes
    that were granted and is granted them again. The exception is an
    empty grant (every requested scope was refused): its scope string
    is empty, which asks for nothing and is granted all the client's
    scopes. *)
Theorem scope_string_round_trip c requested :
  Forall scope_name (scopes c) →
  ∃ requested',
    requested_scopes_of (VStr (join " " (granted_scopes c requested)))
    = Return requested' ∧
    requested' = match granted_scopes c requested with
                 | [] => None
                 | granted => Some granted
                 end ∧
    granted_scopes c requested'
    = match granted_scopes c requested with
      | [] => scopes c
      | granted => granted
      end.
Proof.
  intros Hnames.
  assert (Forall scope_name (granted_scopes c requested)) as Hg.
  { apply Forall_forall. intros s Hs%granted_scopes_allowed.
    by eapply Forall_forall in Hnames. }
  assert (∀ s, s ∈ granted_scopes c requested → s ∈ scopes c) as Hsub
    by (intros s; apply granted_scopes_allowed).
  destruct (granted_scopes c requested) as [|t l] eqn:Hgr.
  { eexists. by repeat split. }
  exists (Some (t :: l)).
  split.
  - unfold requested_scopes_of. cbn [truthy].
    assert (String.eqb (join " " (t :: l)) "" = false) as ->.
    { apply String.eqb_neq, join_nonempty.
      by apply Forall_cons in Hg as [[? _] _]. }
    cbn [negb]. by rewrite split_join.
  - split; [done|]. unfold granted_scopes.
    apply filter_all. intros s Hs. by apply Hsub.
Qed.

End facts.

(** *** The concrete scenario again *)

Definition acme_form : list (string * string) :=
  [("grant_type", "client_credentials");
   ("client_id", "acme"); ("client_secret", "s3cr3t")].

Definition acme_fields : list (string * value) := prod_map id VStr <$> acme_form.


Lemma body_credentials_take_precedence_witness :
  demo_token_endpoint demo_registry
    (with_authorization (Some "Basic mallory:guess") (token_request acme_form))
    1000 "jti-1"
  = demo_token_endpoint demo_registry (token_request acme_form) 1000 "jti-1".
Proof.
  apply (body_credentials_take_precedence demo_sha256 demo_jwt_encode
           demo_b64decode demo_key demo_ttl demo_registry
           (token_request acme_form) acme_fields
           (Some "Basic mallory:guess") 1000 "jti-1");
    reflexivity.
Defined.

Lemma token_endpoint_responses_witness :
  ∃ r,
    demo_token_endpoint demo_registry
      (token_request [("grant_type", "client_credentials");
                      ("client_id", "acme"); ("client_secret", "guess")])
      1000 "jti-1" = Return r ∧
    (token_response demo_ttl r ∨
     error_only r 400 "invalid_request" ∨
     error_only r 400 "unsupported_grant_type" ∨
     error_only r 401 "invalid_client").
Proof.
  eexists. split; [vm_compute; reflexivity|].
  apply (token_endpoint_responses demo_sha256 demo_jwt_encode demo_b64decode
           demo_key demo_ttl demo_registry
           (token_request [("grant_type", "client_credentials");
                           ("client_id", "acme"); ("client_secret", "guess")])
           1000 "jti-1").
  vm_compute. reflexivity.
Defined.

Lemma scope_string_round_trip_witness :
  ∃ requested',
    requested_scopes_of
      (VStr (join " " (granted_scopes demo_client
                         (Some ["admin"; "a2a:travel-agent"]))))
    = Return requested' ∧
    requested' = match granted_scopes demo_client
                         (Some ["admin"; "a2a:travel-agent"]) with
                 | [] => None
                 | granted => Some granted
                 end ∧
    granted_scopes demo_client requested'
    = match granted_scopes demo_client (Some ["admin"; "a2a:travel-agent"]) with
      | [] => scopes demo_client
      | granted => granted
      end.
Proof.
  apply (scope_string_round_trip demo_client (Some ["admin"; "a2a:travel-agent"])).
  repeat constructor; discriminate.
Defined.

(** A name with a no-break space in it is no scope name: the scope
    string that carries it is read back as two scopes. *)
Example scope_with_nbsp :
  no_space ("read" +:+ nbsp +:+ "all") = false ∧
  requested_scopes_of (VStr ("read" +:+ nbsp +:+ "all"))
  = Return (Some ["read"; "all"]).
Proof. split; vm_compute; reflexivity. Qed.

End OAuth2Facts.


(** ** More of a2a_protocol/executor.py: the context table over a run of
    requests *)

Module ExecutorFacts.

Import Executor.

#[local] Arguments travel_agent {_} _.
#[local] Arguments _contexts {_} _.
#[local] Arguments agent_user_context {_} _.
#[local] Arguments agent_internal {_} _.
#[local] Arguments Build_TravelAgentExecutor {_} _ _.
#[local] Arguments Build_TravelAgent {_} _ _.
#[local] Arguments restore_user_context {_} _ _.
#[local] Arguments create_executor {_} _.

Section facts.

Variable agent_state : Type.
Variable extract : string → outcome (gmap string value).
Variable respond :
  string → gmap string value → agent_state → outcome string * agent_state.
Variable reset_state : agent_state → agent_state.

Local Abbreviation execute := (Executor.execute agent_state extract respond).
Local Abbreviation process_message :=
  (Executor.process_message agent_state extract respond).
Local Abbreviation clear_context :=
  (Executor.clear_context agent_state reset_state).
Local Abbreviation executor := (TravelAgentExecutor agent_state).

Definition working_event : Event :=
  {| state := working; message_text := "Processing your travel request..." |}.

(** [execute] in one equation: the key and the context it resolves to,
    then the exception of a request without a context id, or the three
    ways a request with one ends. *)
Lemma execute_spec uuid context (self : executor) q :
  execute uuid context self q
  = let key := resolved_id uuid (context_id context) in
    let c := default (fresh_context key) (_contexts self !! key) in
    let user_message := _extract_message_text (message context) in
    if bool_decide (context_id context = None) then
      (Raise ValidationError,
       {| travel_agent := travel_agent self;
          _contexts := <[key := c]> (_contexts self) |},
       q)
    else if String.eqb user_message "" then
      (Return (),
       {| travel_agent := travel_agent self;
          _contexts := <[key := c]> (_contexts self) |},
       (q ++ [working_event;
              {| state := completed; message_text := no_message_reply |}])%list)
    else
      match process_message user_message
              (restore_user_context c (travel_agent self)) with
      | (Return response, agent2) =>
          (Return (),
           {| travel_agent := agent2;
              _contexts :=
                <[key := {| ctx_context_id := ctx_context_id c;
                            history := history c ++ [("user", user_message);
                                                     ("agent", response)];
                            user_context := agent_user_context agent2 |}]>
                  (_contexts self) |},
           (q ++ [working_event;
                  {| state := completed; message_text := response |}])%list)
      | (Raise e, agent2) =>
          (Return (),
           {| travel_agent := agent2;
              _contexts := <[key := append_history ("user", user_message) c]>
                             (_contexts self) |},
           (q ++ [working_event;
                  {| state := failed;
                     message_text :=
                       "I encountered an error processing your request: "
                       +:+ exn_msg e |}])%list)
      end.
Proof.
  unfold Executor.execute. rewrite _get_or_create_context_spec.
  cbv zeta.
  set (key := resolved_id uuid (context_id context)).
  set (self1 := Build_TravelAgentExecutor _ _).
  assert (_contexts self1 !! key
          = Some (default (fresh_context key) (_contexts self !! key))) as Hk.
  { subst self1. cbn [_contexts].
    destruct (_contexts self !! key) eqn:E; [done|]. apply lookup_insert_eq. }
  assert (∀ x, <[key := x]> (_contexts self1) = <[key := x]> (_contexts self))
    as Hins.
  { intros x. subst self1. cbn [_contexts].
    destruct (_contexts self !! key); [done|]. apply insert_insert_eq. }
  assert (_contexts self1
          = <[key := default (fresh_context key) (_contexts self !! key)]>
              (_contexts self)) as Htable.
  { subst self1. cbn [_contexts].
    destruct (_contexts self !! key) eqn:E; [|done].
    cbn. by rewrite insert_id. }
  unfold execute_try, update_status, working_event.
  destruct (context_id context) as [cid|] eqn:Hid.
  2:{ rewrite bool_decide_eq_true_2 by done. by rewrite <- Htable. }
  rewrite bool_decide_eq_false_2 by done.
  destruct (String.eqb (_extract_message_text (message context)) "").
  { rewrite <- app_assoc. rewrite <- Htable. reflexivity. }
  rewrite (_process_message_spec _ _ _ _ _ _ _ Hk).
  change (travel_agent self1) with (travel_agent self).
  destruct (process_message _ _) as [[response|e] agent2];
    rewrite Hins, <- app_assoc; reflexivity.
Qed.

(** The executor a request leaves behind. *)
Definition executor_after uuid context (self : executor) : executor :=
  (execute uuid context self []).1.2.

Lemma execute_queue_irrelevant uuid context (self : executor) q :
  (execute uuid context self q).1.2 = executor_after uuid context self.
Proof.
  unfold executor_after. rewrite !execute_spec. cbv zeta.
  case_bool_decide; [done|]. destruct (String.eqb _ _); [done|].
  by destruct (process_message _ _) as [[?|?] ?].
Qed.

(** The entry of the request's own key afterwards, and the other keys. *)
Lemma executor_after_lookup uuid context (self : executor) :
  let key := resolved_id uuid (context_id context) in
  let c := default (fresh_context key) (_contexts self !! key) in
  (∃ c', _contexts (executor_after uuid context self) !! key = Some c' ∧
         ctx_context_id c' = ctx_context_id c ∧
         ∃ turns, history c' = (history c ++ turns)%list) ∧
  (∀ k, k ≠ key →
     _contexts (executor_after uuid context self) !! k = _contexts self !! k).
Proof.
  cbv zeta. unfold executor_after. rewrite execute_spec. cbv zeta.
  assert (∀ b : bool,
    (if b then true else String.eqb (_extract_message_text (message context)) "")
    = true ∨ (b = false ∧
              String.eqb (_extract_message_text (message context)) "" = false))
    as Hcases by (intros []; destruct (String.eqb _ _); auto).
  destruct (Hcases (bool_decide (context_id context = None))) as [Hidle|[-> ->]].
  { destruct (bool_decide (context_id context = None));
      [|rewrite Hidle]; cbn [fst snd _contexts]; (split;
      [rewrite lookup_insert_eq; eexists; (split; [done|]); (split; [done|]);
       exists []; by rewrite app_nil_r
      |intros k Hk; by rewrite lookup_insert_ne]). }
  destruct (process_message _ _) as [[response|e] agent2];
    cbn [fst snd _contexts]; (split; [|intros k Hk; by rewrite lookup_insert_ne]);
    rewrite lookup_insert_eq; eexists; (split; [done|]); (split; [done|]);
    eexists; reflexivity.
Qed.

(** *** Runs of requests *)

(** What reaches the executor: a message to handle (with the id
    [uuid.uuid4()] would produce), a cancellation, a context to clear. *)
Inductive call :=
| Execute (uuid : string) (context : RequestContext)
| Cancel (context : RequestContext)
| ClearContext (id : string).

Definition step (σ : executor * list Event) (r : call) : executor * list Event :=
  match r with
  | Execute uuid context =>
      let '(_, self, q) := execute uuid context σ.1 σ.2 in (self, q)
  | Cancel context => (σ.1, (cancel context σ.2).2)
  | ClearContext id =>
      match clear_context id σ.1 with
      | Return self => (self, σ.2)
      | Raise _ => σ
      end
  end.

Definition run (calls : list call) (σ : executor * list Event)
  : executor * list Event := fold_left step calls σ.

(** The conversation a call works on. *)
Definition touches (k : string) (r : call) : Prop :=
  match r with
  | Execute uuid context => resolved_id uuid (context_id context) = k
  | Cancel _ => False
  | ClearContext id => id = k
  end.

Lemma step_execute uuid context σ :
  (step σ (Execute uuid context)).1 = executor_after uuid context σ.1.
Proof.
  unfold step. rewrite <- (execute_queue_irrelevant _ _ _ σ.2).
  by destruct (execute _ _ _ _) as [[? ?] ?].
Qed.

Lemma clear_context_spec id (self : executor) :
  clear_context id self
  = Return {| travel_agent :=
                reset_conversation agent_state reset_state (travel_agent self);
              _contexts := delete id (_contexts self) |}.
Proof.
  unfold Executor.clear_context, dict_del. case_bool_decide as Hin.
  - apply elem_of_dom in Hin as [c ->]. done.
  - apply not_elem_of_dom in Hin. cbn. by rewrite delete_id.
Qed.

(** Every context in the table is filed under its own id. *)
Definition keyed_by_id (self : executor) : Prop :=
  ∀ k c, _contexts self !! k = Some c → ctx_context_id c = k.

Lemma step_keyed_by_id σ r : keyed_by_id σ.1 → keyed_by_id (step σ r).1.
Proof.
  intros Hwf. destruct r as [uuid context|context|id].
  - rewrite step_execute. intros k c.
    destruct (executor_after_lookup uuid context σ.1) as [(c' & Hc' & Hid & _) Hother].
    destruct (decide (k = resolved_id uuid (context_id context))) as [->|Hk].
    + rewrite Hc'. intros [= <-]. rewrite Hid.
      destruct (_contexts σ.1 !! _) eqn:E; [|done]. cbn. by eapply Hwf.
    + rewrite Hother by done. apply Hwf.
  - done.
  - unfold step. rewrite clear_context_spec. unfold keyed_by_id.
    cbn [fst _contexts].
    intros k c [_ Hc]%lookup_delete_Some. by apply Hwf.
Qed.

(** X6. The table is keyed by context id. From a new executor, after
    any run of requests, cancellations and resets, every context in the
    table carries the id it is stored under. *)
Theorem contexts_keyed_by_id st calls :
  keyed_by_id (run calls (create_executor st, [])).1.
Proof.
  unfold run.
  assert (keyed_by_id (create_executor st, @nil Event).1) as H by by intros k c.
  revert H. generalize (create_executor st, @nil Event).
  induction calls as [|r calls IH]; intros σ Hwf; [done|].
  cbn [fold_left]. apply IH. by apply step_keyed_by_id.
Qed.

Lemma step_lookup_untouched k σ r :
  ¬ touches k r → _contexts (step σ r).1 !! k = _contexts σ.1 !! k.
Proof.
  intros Hr. destruct r as [uuid context|context|id]; cbn in Hr.
  - rewrite step_execute.
    destruct (executor_after_lookup uuid context σ.1) as [_ Hother].
    apply Hother. congruence.
  - done.
  - unfold step. rewrite clear_context_spec. cbn [fst _contexts].
    apply lookup_delete_ne. congruence.
Qed.

Lemma run_lookup_untouched k calls σ :
  Forall (λ r, ¬ touches k r) calls →
  _contexts (run calls σ).1 !! k = _contexts σ.1 !! k.
Proof.
  unfold run. revert σ.
  induction calls as [|r calls IH]; intros σ Hcalls; [done|].
  apply Forall_cons in Hcalls as [Hr Hcalls]. cbn [fold_left].
  rewrite IH by done. by apply step_lookup_untouched.
Qed.

(** X7. Other conversations are left alone. Over any run of calls none
    of which works on the context id [k] (no message under it, no reset
    of it), the entry of [k] in the table, its history and attributes,
    stays what it was; if it had none, it still has none. A call that
    does work on [k] leaves an entry for it exactly when it is a
    message. *)
Theorem untouched_context_unchanged k calls σ :
  Forall (λ r, ¬ touches k r) calls →
  _contexts (run calls σ).1 !! k = _contexts σ.1 !! k ∧
  ∀ r, touches k r →
    (is_Some (_contexts (step (run calls σ) r).1 !! k) ↔ r ≠ ClearContext k).
Proof.
  intros Hcalls. split; [by apply run_lookup_untouched|].
  intros r Hr. destruct r as [uuid context|context|id]; cbn in Hr.
  - rewrite step_execute.
    destruct (executor_after_lookup uuid context (run calls σ).1)
      as [(c' & Hc' & _) _].
    rewrite Hr in Hc'. rewrite Hc'. split; [discriminate|eauto].
  - done.
  - subst id. unfold step. rewrite clear_context_spec. cbn [fst _contexts].
    rewrite lookup_delete_eq. split; [by intros [? ?]|done].
Qed.

(** X8. History is append-only. Over any run of calls that does not
    reset the context id [k], the history the context had is a prefix
    of the history it has afterwards. *)
Theorem history_append_only k calls σ c :
  Forall (λ r, r ≠ ClearContext k) calls →
  _contexts σ.1 !! k = Some c →
  ∃ c', _contexts (run calls σ).1 !! k = Some c' ∧
        history c `prefix_of` history c'.
Proof.
  unfold run. revert σ c.
  induction calls as [|r calls IH]; intros σ c Hcalls Hc.
  { exists c. by split. }
  apply Forall_cons in Hcalls as [Hr Hcalls]. cbn [fold_left].
  assert (∃ c1, _contexts (step σ r).1 !! k = Some c1 ∧
                history c `prefix_of` history c1) as (c1 & Hc1 & Hpre).
  { destruct r as [uuid context|context|id].
    - rewrite step_execute.
      destruct (executor_after_lookup uuid context σ.1)
        as [(c' & Hc' & _ & turns & Hturns) Hother].
      destruct (decide (k = resolved_id uuid (context_id context))) as [->|Hk].
      + rewrite Hc in Hturns. cbn in Hturns.
        exists c'. split; [done|]. rewrite Hturns. by apply prefix_app_r.
      + rewrite Hother by done. by exists c.
    - by exists c.
    - unfold step. rewrite clear_context_spec. cbn [fst _contexts].
      rewrite lookup_delete_ne by congruence. by exists c. }
  destruct (IH _ _ Hcalls Hc1) as (c' & Hc' & Hpre').
  exists c'. split; [done|]. by etrans.
Qed.

(** X9. The history mirrors the status. For a request that carries a
    context id, [execute] returns with [working] and one final status
    on the queue, and leaves under the request's key the context it
    found (or a new one) with these turns appended: none when the
    message has no text; the user's text and then the reply, the very
    text of the [completed] status, when the business layer replied;
    the user's text alone when it raised and the status is [failed]. *)
Theorem history_mirrors_status uuid context (self : executor) q :
  is_Some (context_id context) →
  ∃ self' final reply c',
    execute uuid context self q
    = (Return (), self',
       (q ++ [working_event; {| state := final; message_text := reply |}])%list) ∧
    _contexts self' !! resolved_id uuid (context_id context) = Some c' ∧
    history c'
    = (history (default (fresh_context (resolved_id uuid (context_id context)))
                  (_contexts self !! resolved_id uuid (context_id context)))
       ++ if String.eqb (_extract_message_text (message context)) "" then []
          else match final with
               | failed => [("user", _extract_message_text (message context))]
               | _ => [("user", _extract_message_text (message context));
                       ("agent", reply)]
               end)%list.
Proof.
  intros [cid Hid]. rewrite execute_spec. cbv zeta.
  rewrite bool_decide_eq_false_2 by congruence.
  destruct (String.eqb _ _).
  { eexists _, _, _, _. split; [reflexivity|]. cbn [_contexts].
    rewrite lookup_insert_eq. split; [done|]. by rewrite app_nil_r. }
  destruct (process_message _ _) as [[response|e] agent2];
    eexists _, _, _, _; (split; [reflexivity|]); cbn [_contexts];
    rewrite lookup_insert_eq; split; done.
Qed.

(** The agent's context after a message with text whose attributes
    were extracted: the message's, over the stored ones, over what the
    agent held. *)
Lemma executor_after_agent_context uuid context (self : executor) found :
  is_Some (context_id context) →
  _extract_message_text (message context) ≠ "" →
  extract (_extract_message_text (message context)) = Return found →
  agent_user_context (travel_agent (executor_after uuid context self))
  = found ∪ (user_context
               (default (fresh_context (resolved_id uuid (context_id context)))
                  (_contexts self !! resolved_id uuid (context_id context)))
             ∪ agent_user_context (travel_agent self)).
Proof.
  intros [cid Hid] Htext Hfound.
  unfold executor_after. rewrite execute_spec. cbv zeta.
  rewrite bool_decide_eq_false_2 by congruence.
  apply String.eqb_neq in Htext. rewrite Htext.
  unfold Executor.process_message, extract_context. rewrite Hfound.
  cbn [obind].
  set (c := default _ _).
  assert (agent_user_context (restore_user_context c (travel_agent self))
          = user_context c ∪ agent_user_context (travel_agent self)) as ->.
  { unfold restore_user_context, dict_update.
    destruct (size (user_context c) =? 0)%nat eqn:E; [|done].
    apply Nat.eqb_eq, map_size_empty_iff in E. rewrite E.
    by rewrite (left_id_L ∅ (∪)). }
  destruct (respond _ _ _) as [[reply|e] st]; reflexivity.
Qed.

(** X10. Stored attributes survive other conversations. Let the context
    [k] hold attributes, and let any run of calls that do not work on
    [k] follow. The next message under [k], in a request that carries
    a context id, is then processed in a context where every attribute
    it sets itself, and every stored attribute it does not set, has
    that value, whatever the shared agent picked up in between. *)
Theorem stored_attributes_survive k c calls σ uuid context found :
  _contexts σ.1 !! k = Some c →
  Forall (λ r, ¬ touches k r) calls →
  is_Some (context_id context) →
  resolved_id uuid (context_id context) = k →
  _extract_message_text (message context) ≠ "" →
  extract (_extract_message_text (message context)) = Return found →
  ∀ attribute v,
    (found ∪ user_context c) !! attribute = Some v →
    agent_user_context
      (travel_agent (executor_after uuid context (run calls σ).1))
      !! attribute = Some v.
Proof.
  intros Hc Hcalls Hid Hk Htext Hfound attribute v Hv.
  rewrite (executor_after_agent_context _ _ _ _ Hid Htext Hfound), Hk.
  rewrite (run_lookup_untouched _ _ _ Hcalls), Hc. cbn [default from_option id].
  rewrite (assoc_L (∪)). by apply lookup_union_Some_l.
Qed.

(** X11. After a reset the agent holds nothing. The message handled
    right after [clear_context], in a request that carries a context
    id, whichever, is processed in the context made of its own
    attributes over those stored for its conversation and nothing
    else: for a conversation new to the table, its own attributes
    alone. *)
Theorem reset_forgets_agent_context id (self self' : executor) uuid context found :
  clear_context id self = Return self' →
  is_Some (context_id context) →
  _extract_message_text (message context) ≠ "" →
  extract (_extract_message_text (message context)) = Return found →
  agent_user_context (travel_agent (executor_after uuid context self'))
  = found ∪
    match _contexts self' !! resolved_id uuid (context_id context) with
    | Some c => user_context c
    | None => ∅
    end.
Proof.
  rewrite clear_context_spec. intros [= <-] Hid Htext Hfound.
  rewrite (executor_after_agent_context _ _ _ _ Hid Htext Hfound).
  cbn [travel_agent agent_user_context reset_conversation].
  rewrite (right_id_L ∅ (∪)). by destruct (_ !! _).
Qed.

(** *** What holds of every context along a run *)

(** The attribute [a] is in no context: not the agent's, not a stored
    one. *)
Definition lacks (a : string) (self : executor) : Prop :=
  agent_user_context (travel_agent self) !! a = None ∧
  ∀ k c, _contexts self !! k = Some c → user_context c !! a = None.

Lemma restore_lacks a c (agent : TravelAgent agent_state) :
  user_context c !! a = None →
  agent_user_context agent !! a = None →
  agent_user_context (restore_user_context c agent) !! a = None.
Proof.
  intros Hc Ha. unfold restore_user_context, dict_update.
  destruct (size _ =? 0)%nat; [done|]. cbn [agent_user_context].
  by apply lookup_union_None.
Qed.

Lemma process_message_lacks a m (agent : TravelAgent agent_state) :
  (∀ m found, extract m = Return found → found !! a = None) →
  agent_user_context agent !! a = None →
  agent_user_context (process_message m agent).2 !! a = None.
Proof.
  intros Hex Ha. unfold Executor.process_message, extract_context.
  destruct (extract m) as [found|e] eqn:E; cbn [obind]; [|done].
  destruct (respond _ _ _) as [r st]. cbn [snd agent_user_context].
  apply lookup_union_None. split; [by eapply Hex|done].
Qed.

Lemma step_lacks a σ r :
  (∀ m found, extract m = Return found → found !! a = None) →
  lacks a σ.1 → lacks a (step σ r).1.
Proof.
  intros Hex [Hagent Hstored]. destruct r as [uuid context|context|id].
  - rewrite step_execute. unfold executor_after. rewrite execute_spec.
    cbv zeta.
    set (key := resolved_id uuid (context_id context)).
    set (c := default (fresh_context key) (_contexts σ.1 !! key)).
    assert (user_context c !! a = None) as Hc.
    { subst c. destruct (_contexts σ.1 !! key) eqn:E; [by eapply Hstored|done]. }
    assert (∀ (x : Context) (m : gmap string Context),
              user_context x !! a = None →
              (∀ k c, m !! k = Some c → user_context c !! a = None) →
              ∀ k c, <[key := x]> m !! k = Some c → user_context c !! a = None)
      as Hinsert.
    { intros x m Hx Hm k c0. rewrite lookup_insert. case_decide.
      - by intros [= <-].
      - apply Hm. }
    case_bool_decide.
    { split; [done|]. cbn [fst snd _contexts]. by apply Hinsert. }
    destruct (String.eqb _ _).
    { split; [done|]. cbn [fst snd _contexts]. by apply Hinsert. }
    pose proof (process_message_lacks a (_extract_message_text (message context))
                  (restore_user_context c (travel_agent σ.1)) Hex
                  (restore_lacks _ _ _ Hc Hagent)) as Hafter.
    destruct (process_message _ _) as [[response|e] agent2];
      cbn [snd] in Hafter; (split; [done|]); cbn [fst snd _contexts];
      by apply Hinsert.
  - done.
  - unfold step. rewrite clear_context_spec. split; [done|].
    cbn [fst _contexts]. intros k c [_ Hc]%lookup_delete_Some. by eapply Hstored.
Qed.

Lemma run_lacks a calls σ :
  (∀ m found, extract m = Return found → found !! a = None) →
  lacks a σ.1 → lacks a (run calls σ).1.
Proof.
  intros Hex. unfold run. revert σ.
  induction calls as [|r calls IH]; intros σ Hl; [done|].
  cbn [fold_left]. apply IH. by apply step_lacks.
Qed.

(** A property of the agent's own state that the replies and the
    reset keep holds along every run. *)
Lemma run_agent_state (P : agent_state → Prop) calls σ :
  (∀ m ctx st, P st → P (respond m ctx st).2) →
  (∀ st, P st → P (reset_state st)) →
  P (agent_internal (travel_agent σ.1)) →
  P (agent_internal (travel_agent (run calls σ).1)).
Proof.
  intros Hrespond Hreset. unfold run. revert σ.
  induction calls as [|r calls IH]; intros σ HP; [done|].
  cbn [fold_left]. apply IH. destruct r as [uuid context|context|id].
  - rewrite step_execute. unfold executor_after. rewrite execute_spec.
    cbv zeta. case_bool_decide; [done|]. destruct (String.eqb _ _); [done|].
    unfold Executor.process_message.
    destruct (extract_context _ _ _) as [ctx|e];
      [|cbn [fst snd travel_agent]; by rewrite restore_internal].
    pose proof (Hrespond (_extract_message_text (message context)) ctx _
                  HP) as Hst.
    rewrite restore_internal.
    destruct (respond _ _ _) as [[response|e] st]; exact Hst.
  - done.
  - unfold step. rewrite clear_context_spec. cbn. by apply Hreset.
Qed.

End facts.

(** X12. The extracted text is trimmed. Whatever the message, the
    string [_extract_message_text] returns starts with no whitespace
    character, no tail of it (the empty one apart) is made of
    whitespace alone, so it ends with none, and stripping it again
    changes nothing; a message whose only part is a text part yields
    that part's text, stripped. Whitespace is what [str.isspace]
    accepts, beyond ASCII too. *)
Theorem extracted_text_trimmed message :
  space_width (_extract_message_text message) = 0%nat ∧
  (∀ a b, _extract_message_text message = a +:+ b → b ≠ "" → lstrip b ≠ "") ∧
  strip (_extract_message_text message) = _extract_message_text message ∧
  (∀ t, message = text_message t → _extract_message_text message = strip t).
Proof.
  assert (∀ t, message = text_message t →
               _extract_message_text message = strip t) as Hone
    by (by intros t ->).
  assert (space_width "" = 0%nat ∧
          (∀ a b, "" = a +:+ b → b ≠ "" → lstrip b ≠ "") ∧
          strip "" = "") as (H1 & H2 & H3).
  { split; [done|]. split; [|done]. by intros [|] [|]. }
  unfold _extract_message_text in *. destruct message as [m|]; [|done].
  destruct (parts m); [done|].
  destruct (strip_trimmed (join " " ((p :: l) ≫= part_texts))) as (T1 & T2 & T3).
  done.
Qed.

Example extracted_text_nbsp :
  _extract_message_text (text_message (nbsp +:+ "hello" +:+ nbsp)) = "hello".
Proof. reflexivity. Qed.

(** *** Runs of the scenario's agent *)

Definition demo_run := run nat demo_extract demo_respond (λ _, 0%nat).

(** The executor after Paris was named under [s1]. *)
Definition paris_named : TravelAgentExecutor nat * list Event :=
  demo_run [Execute "u1" (request (Some "s1") "I want to visit Paris")]
    (new_executor, []).

Definition other_traffic : list call :=
  [Execute "u2" (request (Some "s2") "a hostel in Tokyo");
   Cancel (request (Some "s2") "");
   ClearContext "s3";
   Execute "u3" (request None "hello")].

Lemma untouched_context_unchanged_witness :
  _contexts (demo_run other_traffic paris_named).1 !! "s1"
  = _contexts paris_named.1 !! "s1" ∧
  ∀ r, touches "s1" r →
    (is_Some (_contexts (step nat demo_extract demo_respond (λ _, 0%nat)
                           (demo_run other_traffic paris_named) r).1 !! "s1")
     ↔ r ≠ ClearContext "s1").
Proof.
  apply (untouched_context_unchanged nat demo_extract demo_respond (λ _, 0%nat)
           "s1" other_traffic paris_named).
  repeat constructor; cbn; (discriminate || tauto).
Defined.

Lemma history_append_only_witness :
  ∃ c', _contexts (demo_run
                     [Execute "u4" (request (Some "s1") "book a hotel");
                      ClearContext "s2"] paris_named).1 !! "s1" = Some c' ∧
        [("user", "I want to visit Paris");
         ("agent", "Planning your trip to Paris")] `prefix_of` history c'.
Proof.
  apply (history_append_only nat demo_extract demo_respond (λ _, 0%nat) "s1"
           [Execute "u4" (request (Some "s1") "book a hotel"); ClearContext "s2"]
           paris_named
           {| ctx_context_id := "s1";
              history := [("user", "I want to visit Paris");
                          ("agent", "Planning your trip to Paris")];
              user_context := {[ "destination" := VStr "Paris" ]} |}).
  - repeat constructor; discriminate.
  - vm_compute. reflexivity.
Defined.

Lemma history_mirrors_status_witness :
  ∃ self' final reply c',
    execute nat demo_extract demo_respond "u4"
      (request (Some "s1") "crash now") paris_named.1 []
    = (Return (), self',
       ([] ++ [working_event; {| state := final; message_text := reply |}])%list) ∧
    _contexts self'
      !! resolved_id "u4" (context_id (request (Some "s1") "crash now"))
    = Some c' ∧
    history c'
    = (history
         (default
            (fresh_context
               (resolved_id "u4" (context_id (request (Some "s1") "crash now"))))
            (_contexts paris_named.1
               !! resolved_id "u4"
                    (context_id (request (Some "s1") "crash now"))))
       ++ if String.eqb
               (_extract_message_text (message (request (Some "s1") "crash now")))
               ""
          then []
          else match final with
               | failed =>
                   [("user",
                     _extract_message_text
                       (message (request (Some "s1") "crash now")))]
               | _ =>
                   [("user",
                     _extract_message_text
                       (message (request (Some "s1") "crash now")));
                    ("agent", reply)]
               end)%list.
Proof.
  apply (history_mirrors_status nat demo_extract demo_respond "u4"
           (request (Some "s1") "crash now") paris_named.1 []).
  by eexists.
Defined.

(** The request above ends [failed], with the user's turn alone added
    to the two turns about Paris. *)
Example crash_after_paris :
  let '(r, self, q) :=
    execute nat demo_extract demo_respond "u4"
      (request (Some "s1") "crash now") paris_named.1 [] in
  q = [working_event;
       {| state := failed;
          message_text :=
            "I encountered an error processing your request: upstream failure" |}]
  ∧ history <$> (_contexts self !! "s1")
    = Some [("user", "I want to visit Paris");
            ("agent", "Planning your trip to Paris");
            ("user", "crash now")].
Proof. vm_compute. split; reflexivity. Qed.

Lemma stored_attributes_survive_witness :
  agent_user_context
    (travel_agent
       (executor_after nat demo_extract demo_respond "u5"
          (request (Some "s1") "book a hotel")
          (demo_run other_traffic paris_named).1))
    !! "destination" = Some (VStr "Paris").
Proof.
  apply (stored_attributes_survive nat demo_extract demo_respond (λ _, 0%nat)
           "s1"
           {| ctx_context_id := "s1";
              history := [("user", "I want to visit Paris");
                          ("agent", "Planning your trip to Paris")];
              user_context := {[ "destination" := VStr "Paris" ]} |}
           other_traffic paris_named "u5" (request (Some "s1") "book a hotel")
           {[ "accommodation_type" := VStr "hotel" ]}).
  - vm_compute. reflexivity.
  - repeat constructor; cbn; (discriminate || tauto).
  - by eexists.
  - reflexivity.
  - discriminate.
  - vm_compute. reflexivity.
  - vm_compute. reflexivity.
Defined.

Lemma reset_forgets_agent_context_witness :
  agent_user_context
    (travel_agent
       (executor_after nat demo_extract demo_respond "u6"
          (request (Some "s2") "hello")
          {| travel_agent :=
               reset_conversation nat (λ _, 0%nat) (travel_agent paris_named.1);
             _contexts := delete "s9" (_contexts paris_named.1) |}))
  = ∅ ∪ match _contexts
                {| travel_agent :=
                     reset_conversation nat (λ _, 0%nat) (travel_agent paris_named.1);
                   _contexts := delete "s9" (_contexts paris_named.1) |}
              !! resolved_id "u6" (context_id (request (Some "s2") "hello")) with
        | Some c => user_context c
        | None => ∅
        end.
Proof.
  apply (reset_forgets_agent_context nat demo_extract demo_respond (λ _, 0%nat)
           "s9" paris_named.1).
  - vm_compute. reflexivity.
  - by eexists.
  - discriminate.
  - vm_compute. reflexivity.
Defined.

End ExecutorFacts.


(** ** agent/conversation_handler.py *)

Module ConversationHandler.

(** [s.title()], on the strings it is applied to here: the names of the
    destinations and the group of an origin pattern, which hold the
    letters a to z and whitespace only. *)
Definition upper_ascii (c : ascii) : ascii :=
  let n := nat_of_ascii c in
  if (97 <=? n)%nat && (n <=? 122)%nat then ascii_of_nat (n - 32) else c.

Definition is_letter (c : ascii) : bool :=
  let n := nat_of_ascii c in
  ((65 <=? n)%nat && (n <=? 90)%nat) || ((97 <=? n)%nat && (n <=? 122)%nat).

Fixpoint title_go (after_letter : bool) (s : string) : string :=
  match s with
  | EmptyString => EmptyString
  | String c s' =>
      String (if after_letter then Executor.lower_ascii c else upper_ascii c)
             (title_go (is_letter c) s')
  end.

Definition title (s : string) : string := title_go false s.

(** [any(word in s for word in words)] *)
Definition any_in (words : list string) (s : string) : bool :=
  existsb (λ w, contains w s) words.

(** The [destinations] list of [extract_context]. *)
Definition destinations : list string :=
  ["paris"; "tokyo"; "new york"; "london"; "rome";
   "barcelona"; "dubai"; "singapore"; "sydney"; "bali";
   "amsterdam"; "berlin"; "lisbon"; "prague"; "bangkok"].

(** The [interest_keywords] dictionary, in its order. *)
Definition interest_keywords : list (string * list string) :=
  [("culture", ["museum"; "culture"; "historical"; "history"; "art"]);
   ("adventure", ["adventure"; "hiking"; "outdoor"; "nature"; "trek"]);
   ("food", ["food"; "restaurant"; "dining"; "cuisine"; "culinary"]);
   ("relaxation", ["relax"; "beach"; "spa"; "peaceful"; "quiet"]);
   ("nightlife", ["nightlife"; "bar"; "club"; "party"]);
   ("shopping", ["shopping"; "mall"; "market"; "boutique"])].

(** [context[k] = v] when there is a value to assign. *)
Definition assign (k : string) (v : option value) (context : gmap string value)
  : gmap string value :=
  match v with
  | Some v => <[k := v]> context
  | None => context
  end.

Section extraction.

(** [str.lower], on all of Unicode. *)
Variable str_lower : string → string.

(** [int] on the digits a pattern matched: their number, or the
    [ValueError] the interpreter raises when they are more than it
    converts (4300 digits unless configured otherwise). *)
Variable int_of_digits : string → outcome Z.

(** The regular-expression searches of [extract_context], each on the
    lower-cased message: [origin_match] is [group(1)] of the first of
    the three origin patterns that matches; [budget_match] the amount
    [float(group(1).replace(',', ''))] of the first budget pattern that
    matches, which is infinite rather than an error when the digits
    are many; [days_match], [weeks_match], [nights_match] and
    [travelers_match] the digits [group(1)] of their pattern. *)
Variable origin_match : string → option string.
Variable budget_match : string → option value.
Variable days_match : string → option string.
Variable weeks_match : string → option string.
Variable nights_match : string → option string.
Variable travelers_match : string → option string.

(** [ConversationHandler.parse_intent] *)
Definition parse_intent (message : string) : string :=
  let message_lower := str_lower message in
  if any_in ["plan"; "planning"; "trip to"; "visit"; "going to"] message_lower
  then "plan_trip"
  else if any_in ["recommend"; "suggest"; "what to do"; "what should"] message_lower
  then "get_recommendations"
  else if any_in ["itinerary"; "schedule"; "day by day"; "daily plan"] message_lower
  then "create_itinerary"
  else if any_in ["budget"; "cost"; "price"; "how much"; "expensive"] message_lower
  then "calculate_budget"
  else if any_in ["book"; "booking"; "reserve"; "reservation"] message_lower
  then "booking_assistance"
  else if any_in ["visa"; "passport"; "insurance"; "safety"; "emergency"] message_lower
  then "travel_support"
  else "general_inquiry".


Definition found_destination (message_lower : string) : option value :=
  (λ dest, VStr (title dest))
    <$> List.find (λ dest, contains dest message_lower) destinations.

Definition found_origin (message_lower : string) : option value :=
  match origin_match message_lower with
  | Some group =>
      let origin := title (strip group) in
      if negb (String.eqb origin "")
         && negb (bool_decide (str_lower origin ∈ destinations))
      then Some (VStr origin)
      else None
  | None => None
  end.

Definition found_budget_level (message_lower : string) : option value :=
  if contains "budget" message_lower || contains "cheap" message_lower
  then Some (VStr "budget")
  else if contains "luxury" message_lower || contains "premium" message_lower
          || contains "high-end" message_lower
  then Some (VStr "luxury")
  else if contains "moderate" message_lower || contains "mid-range" message_lower
  then Some (VStr "moderate")
  else None.

(** The first duration pattern that matches is converted, and no other
    is tried. *)
Definition found_duration (message_lower : string) : outcome (option value) :=
  match days_match message_lower with
  | Some group =>
      obind (int_of_digits group) (λ value, Return (Some (VInt value)))
  | None =>
      match weeks_match message_lower with
      | Some group =>
          obind (int_of_digits group) (λ value, Return (Some (VInt (value * 7))))
      | None =>
          match nights_match message_lower with
          | Some group =>
              obind (int_of_digits group)
                    (λ value, Return (Some (VInt (value + 1))))
          | None => Return None
          end
      end
  end.

Definition found_travelers (message_lower : string) : outcome (option value) :=
  match travelers_match message_lower with
  | Some group =>
      obind (int_of_digits group) (λ value, Return (Some (VInt value)))
  | None => Return None
  end.

Definition found_accommodation (message_lower : string) : option value :=
  if contains "hotel" message_lower then Some (VStr "hotel")
  else if contains "hostel" message_lower then Some (VStr "hostel")
  else if contains "airbnb" message_lower
          || contains "vacation rental" message_lower
  then Some (VStr "vacation_rental")
  else if contains "resort" message_lower then Some (VStr "resort")
  else None.

Definition found_transport (message_lower : string) : option value :=
  if contains "public transport" message_lower || contains "metro" message_lower
     || contains "bus" message_lower
  then Some (VStr "public_transport")
  else if contains "rental car" message_lower || contains "car rental" message_lower
  then Some (VStr "rental_car")
  else if contains "taxi" message_lower || contains "uber" message_lower
          || contains "ride" message_lower
  then Some (VStr "ride_sharing")
  else if contains "walk" message_lower || contains "walking" message_lower
  then Some (VStr "walking")
  else None.

Definition found_interests (message_lower : string) : option value :=
  match List.filter (λ entry, any_in entry.2 message_lower) interest_keywords with
  | [] => None
  | interests => Some (VList ((λ entry, VStr entry.1) <$> interests))
  end.

(** [ConversationHandler.extract_context]. The assignments are made to
    a copy, so when a conversion raises nothing of them is left. *)
Definition extract_context (message : string)
  (current_context : gmap string value) : outcome (gmap string value) :=
  let context := current_context in
  let message_lower := str_lower message in
  let context := assign "destination" (found_destination message_lower) context in
  let context := assign "origin" (found_origin message_lower) context in
  let context := assign "budget" (budget_match message_lower) context in
  let context := assign "budget_level" (found_budget_level message_lower) context in
  obind (found_duration message_lower) (λ duration,
  let context := assign "duration" duration context in
  obind (found_travelers message_lower) (λ travelers,
  let context := assign "travelers" travelers context in
  let context :=
    assign "accommodation_type" (found_accommodation message_lower) context in
  let context := assign "local_transport" (found_transport message_lower) context in
  let context := assign "interests" (found_interests message_lower) context in
  Return context)).

(** The attributes [extract_context] may assign. *)
Definition attribute_names : list string :=
  ["destination"; "origin"; "budget"; "budget_level"; "duration";
   "travelers"; "accommodation_type"; "local_transport"; "interests"].

Lemma assign_union k v (a b : gmap string value) :
  assign k v (a ∪ b) = assign k v a ∪ b.
Proof. destruct v; [apply insert_union_l|done]. Qed.

Lemma assign_lookup_ne k k' v (m : gmap string value) :
  k ≠ k' → assign k v m !! k' = m !! k'.
Proof. intros Hk. destruct v; [by apply lookup_insert_ne|done]. Qed.

Lemma assign_lookup_eq k v (m : gmap string value) :
  assign k v m !! k = match v with Some x => Some x | None => m !! k end.
Proof. destruct v; [apply lookup_insert_eq|done]. Qed.

Lemma extract_context_union message current_context :
  extract_context message current_context
  = obind (extract_context message ∅)
          (λ found, Return (found ∪ current_context)).
Proof.
  unfold extract_context. cbv zeta.
  destruct (found_duration _) as [duration|e]; [|done]. cbn [obind].
  destruct (found_travelers _) as [travelers|e]; [|done]. cbn [obind].
  rewrite <- !assign_union. by rewrite (left_id_L ∅ (∪)).
Qed.

Lemma extract_context_found message current_context context :
  extract_context message current_context = Return context →
  ∃ found, extract_context message ∅ = Return found ∧
           context = found ∪ current_context.
Proof.
  rewrite extract_context_union.
  destruct (extract_context message ∅) as [found|e]; [|done].
  intros [= <-]. eauto.
Qed.

Lemma extract_context_other_key message current_context context k :
  extract_context message current_context = Return context →
  k ∉ attribute_names →
  context !! k = current_context !! k.
Proof.
  unfold extract_context. cbv zeta.
  destruct (found_duration _) as [duration|e]; [|done]. cbn [obind].
  destruct (found_travelers _) as [travelers|e]; [|done]. cbn [obind].
  intros [= <-] Hk.
  rewrite !assign_lookup_ne; [done|..];
    intros <-; apply Hk; unfold attribute_names; rewrite !elem_of_cons; tauto.
Qed.

(** X13. Extraction only adds. Whether [extract_context] raises, and
    which attributes it finds with which values, depend on the message
    alone; when it returns, the result is the current context with the
    attributes found laid over it. So applying it again with the same
    message to its result returns the result unchanged, no key of the
    current context is lost, and a key that is not one of the nine
    attributes keeps the value the current context has. *)
Theorem extract_context_merges message current_context :
  extract_context message current_context
  = obind (extract_context message ∅)
          (λ found, Return (found ∪ current_context)) ∧
  (∀ context,
     extract_context message current_context = Return context →
     extract_context message context = Return context ∧
     dom current_context ⊆ dom context ∧
     (∀ k, k ∉ attribute_names → context !! k = current_context !! k)).
Proof.
  split; [apply extract_context_union|].
  intros context Hc. split; [|split].
  - destruct (extract_context_found _ _ _ Hc) as (found & Hf & ->).
    rewrite (extract_context_union _ (found ∪ current_context)), Hf.
    cbn [obind]. by rewrite (assoc_L (∪)), (idemp_L (∪)).
  - destruct (extract_context_found _ _ _ Hc) as (found & Hf & ->).
    rewrite dom_union_L. set_solver.
  - intros k. by apply (extract_context_other_key message current_context).
Qed.

(** X14. A known destination is never taken as the origin. Whatever
    the message and the searches find, an [origin] in the context that
    [extract_context] returns is the one the current context had, or a
    non-empty name whose lower-case form is not in the list of
    destinations: "from paris", for one, leaves the origin as it was. *)
Theorem origin_never_a_destination message current_context context v :
  extract_context message current_context = Return context →
  context !! "origin" = Some v →
  current_context !! "origin" = Some v ∨
  ∃ origin, v = VStr origin ∧ origin ≠ "" ∧ str_lower origin ∉ destinations.
Proof.
  unfold extract_context. cbv zeta.
  destruct (found_duration _) as [duration|e]; [|done]. cbn [obind].
  destruct (found_travelers _) as [travelers|e]; [|done]. cbn [obind].
  intros [= <-].
  rewrite !assign_lookup_ne by discriminate.
  rewrite assign_lookup_eq, assign_lookup_ne by discriminate.
  unfold found_origin.
  destruct (origin_match (str_lower message)) as [group|]; [|by left].
  destruct (negb (String.eqb (title (strip group)) "")) eqn:Hne; cbn [andb];
    [|by left].
  case_bool_decide as Hin; cbn [negb]; [by left|].
  intros [= <-]. right. eexists. split; [done|]. split; [|done].
  apply negb_true_iff, String.eqb_neq in Hne. done.
Qed.

End extraction.

(** [ConversationHandler.get_required_information] *)
Definition get_required_information : list string :=
  ["destination"; "origin"; "duration"; "budget"; "travelers";
   "travel_dates"; "budget_level"; "interests"].

Definition essential : list string := ["destination"; "duration"; "budget"].

(** [ConversationHandler.check_missing_information] *)
Definition check_missing_information (context : gmap string value)
  (required : list string) : list string :=
  let missing_essential :=
    List.filter (λ field, bool_decide (context !! field = None)) essential in
  match missing_essential with
  | _ :: _ => missing_essential
  | [] => List.filter (λ field, bool_decide (context !! field = None)) required
  end.

Section questions.

(** The [questions] table of [ask_for_information]. *)
Variable questions : gmap string string.

(** [ConversationHandler.ask_for_information] *)
Definition ask_for_information (field : string) : string :=
  default ("Could you please provide information about " +:+ field +:+ "?")
          (questions !! field).

Definition tell_me_more : string :=
  "I'd love to help! Could you tell me more about what you're looking for?".

(** [ConversationHandler.ask_clarifying_question] *)
Definition ask_clarifying_question (context : gmap string value) : string :=
  match check_missing_information context get_required_information with
  | field :: _ => ask_for_information field
  | [] => tell_me_more
  end.

Lemma filter_missing_elem (context : gmap string value) l field :
  field ∈ List.filter (λ f, bool_decide (context !! f = None)) l ↔
  field ∈ l ∧ context !! field = None.
Proof.
  rewrite list_elem_of_In, filter_In, <- list_elem_of_In.
  by rewrite bool_decide_eq_true.
Qed.

Lemma filter_missing_nil (context : gmap string value) l :
  List.filter (λ f, bool_decide (context !! f = None)) l = [] ↔
  ∀ field, field ∈ l → is_Some (context !! field).
Proof.
  split.
  - intros Hl field Hin. destruct (context !! field) eqn:E; [done|].
    assert (field ∈ List.filter (λ f, bool_decide (context !! f = None)) l)
      as Hf by by apply filter_missing_elem.
    rewrite Hl in Hf. by apply elem_of_nil in Hf.
  - intros Hall. destruct (List.filter _ l) as [|f l'] eqn:E; [done|].
    assert (f ∈ List.filter (λ f, bool_decide (context !! f = None)) l)
      as [Hin Hnone]%filter_missing_elem by (rewrite E; left).
    apply Hall in Hin as [? Hsome]. congruence.
Qed.

(** A missing destination is the first field returned. *)
Lemma check_missing_destination context required :
  context !! "destination" = None →
  ∃ rest, check_missing_information context required = "destination" :: rest.
Proof.
  intros Hd. unfold check_missing_information, essential. cbn [List.filter].
  rewrite bool_decide_eq_true_2 by done. eauto.
Qed.

(** Nothing is missing only if every required field is there. *)
Lemma check_missing_nil context :
  check_missing_information context get_required_information = [] ↔
  ∀ field, field ∈ get_required_information → is_Some (context !! field).
Proof.
  unfold check_missing_information.
  destruct (List.filter _ essential) as [|f l] eqn:E.
  - apply filter_missing_nil.
  - split; [discriminate|]. intros Hall.
    assert (f ∈ List.filter (λ f, bool_decide (context !! f = None)) essential)
      as [Hin Hnone]%filter_missing_elem by (rewrite E; left).
    assert (f ∈ get_required_information) as Hreq.
    { unfold essential in Hin. rewrite !elem_of_cons, elem_of_nil in Hin.
      unfold get_required_information. rewrite !elem_of_cons. tauto. }
    apply Hall in Hreq as [? ?]. congruence.
Qed.

(** X15. What is asked next. [check_missing_information] returns only
    fields the context lacks; while one of destination, duration and
    budget is missing it returns those alone, so
    [ask_clarifying_question] asks for the destination whenever the
    context has none; and it asks for nothing, giving the general
    prompt, exactly when the context has all eight required fields. *)
Theorem clarifying_question_order context :
  (∀ required field,
     field ∈ check_missing_information context required →
     context !! field = None ∧ (field ∈ essential ∨ field ∈ required)) ∧
  (∀ required field,
     (∃ e, e ∈ essential ∧ context !! e = None) →
     field ∈ check_missing_information context required → field ∈ essential) ∧
  (context !! "destination" = None →
   ask_clarifying_question context = ask_for_information "destination") ∧
  (check_missing_information context get_required_information = [] ↔
   ∀ field, field ∈ get_required_information → is_Some (context !! field)).
Proof.
  split; [|split; [|split]].
  - intros required field. unfold check_missing_information.
    destruct (List.filter _ essential) eqn:E.
    + intros [? ?]%filter_missing_elem. auto.
    + rewrite <- E. intros [? ?]%filter_missing_elem. auto.
  - intros required field (e & He & Hnone). unfold check_missing_information.
    destruct (List.filter _ essential) eqn:E.
    + assert (e ∈ List.filter (λ f, bool_decide (context !! f = None)) essential)
        as Hf by by apply filter_missing_elem.
      rewrite E in Hf. by apply elem_of_nil in Hf.
    + rewrite <- E. by intros [? ?]%filter_missing_elem.
  - intros Hd. unfold ask_clarifying_question.
    by destruct (check_missing_destination context get_required_information Hd)
      as [rest ->].
  - apply check_missing_nil.
Qed.

End questions.

Example title_new_york : title "new york" = "New York".
Proof. reflexivity. Qed.

(** Instances for examples: [str.lower] on text in ASCII, [int] on
    ASCII digits with the interpreter's limit of 4300, and searches
    that find nothing, a city after "from", or the digits before
    "days". *)
Definition ascii_lower (s : string) : string := Executor.lower s.

Definition digit_limit : exn :=
  PyExn "ValueError"
    "Exceeds the limit (4300 digits) for integer string conversion".

Fixpoint digits_number (acc : Z) (s : string) : Z :=
  match s with
  | EmptyString => acc
  | String c s' => digits_number (10 * acc + (Z.of_nat (nat_of_ascii c) - 48)) s'
  end.

Definition ascii_int (digits : string) : outcome Z :=
  if (4300 <? String.length digits)%nat then Raise digit_limit
  else Return (digits_number 0 digits).

Fixpoint leading_digits (s : string) : string :=
  match s with
  | String c s' =>
      if ((48 <=? nat_of_ascii c) && (nat_of_ascii c <=? 57))%nat
      then String c (leading_digits s') else EmptyString
  | EmptyString => EmptyString
  end.

Definition no_text_match (message_lower : string) : option string := None.
Definition no_value_match (message_lower : string) : option value := None.
Definition from_boston (message_lower : string) : option string :=
  if contains "from boston" message_lower then Some "boston " else None.
(** A message that starts with digits followed by " days". *)
Definition days_first (message_lower : string) : option string :=
  let digits := leading_digits message_lower in
  if negb (String.eqb digits "")
     && String.prefix (digits +:+ " days") message_lower
  then Some digits else None.

Definition demo_parse_intent := parse_intent ascii_lower.

Definition demo_extract_context :=
  extract_context ascii_lower ascii_int from_boston no_value_match
    days_first no_text_match no_text_match no_text_match.

Example parse_intent_precedence :
  demo_parse_intent "How much does it cost to visit Rome?" = "plan_trip".
Proof. reflexivity. Qed.

Example extract_from_boston :
  demo_extract_context "A cheap hostel in Paris, from Boston" ∅
  = Return {[ "destination" := VStr "Paris"; "origin" := VStr "Boston";
              "budget_level" := VStr "budget";
              "accommodation_type" := VStr "hostel" ]}.
Proof. vm_compute. reflexivity. Qed.

Example extract_ten_days :
  demo_extract_context "10 days in Rome" {[ "origin" := VStr "Lyon" ]}
  = Return {[ "destination" := VStr "Rome"; "duration" := VInt 10;
              "origin" := VStr "Lyon" ]}.
Proof. vm_compute. reflexivity. Qed.

(** "bar" is found in "barcelona". *)
Example barcelona_nightlife :
  (λ context, context !! "interests") <$>
    match demo_extract_context "Barcelona" ∅ with
    | Return context => Some context
    | Raise _ => None
    end
  = Some (Some (VList [VStr "nightlife"])).
Proof. vm_compute. reflexivity. Qed.

(** A duration of 4301 digits: the conversion raises, and the context
    of the message is lost with it. *)
Definition long_duration : string :=
  String.concat "" (repeat "1" 4301) +:+ " days in Rome".

Example extract_long_duration current_context :
  demo_extract_context long_duration current_context = Raise digit_limit.
Proof.
  unfold demo_extract_context, extract_context. cbv zeta.
  assert (found_duration ascii_int days_first no_text_match no_text_match
            (ascii_lower long_duration) = Raise digit_limit) as ->
    by (vm_compute; reflexivity).
  reflexivity.
Qed.

Lemma origin_never_a_destination_witness :
  ({[ "origin" := VStr "Lyon" ]} : gmap string value) !! "origin"
  = Some (VStr "Boston") ∨
  ∃ origin, VStr "Boston" = VStr origin ∧ origin ≠ "" ∧
            ascii_lower origin ∉ destinations.
Proof.
  apply (origin_never_a_destination ascii_lower ascii_int from_boston
           no_value_match days_first no_text_match no_text_match no_text_match
           "Flying from Boston" {[ "origin" := VStr "Lyon" ]}
           (<[ "origin" := VStr "Boston" ]> {[ "origin" := VStr "Lyon" ]})
           (VStr "Boston")).
  - vm_compute. reflexivity.
  - vm_compute. reflexivity.
Defined.

End ConversationHandler.


(** ** services/ai_service.py and the response reader of
    services/azure_openai_client.py *)

Module AIService.

(** The name of a value's type, as error messages print it. *)
Definition type_name (v : value) : string :=
  match v with
  | VNone => "NoneType"
  | VBool _ => "bool"
  | VInt _ => "int"
  | VStr _ => "str"
  | VList _ => "list"
  | VDict _ => "dict"
  end.

Definition not_subscriptable (v : value) : exn :=
  PyExn "TypeError" ("'" +:+ type_name v +:+ "' object is not subscriptable").

(** [v[key]] for a string [key] without quotes in it: the entry of a
    dictionary, whose keys are strings when it is read from JSON. *)
Definition subscript_key (v : value) (key : string) : outcome value :=
  match v with
  | VDict fields =>
      match dict_of fields !! key with
      | Some x => Return x
      | None => Raise (PyExn "KeyError" ("'" +:+ key +:+ "'"))
      end
  | VList _ =>
      Raise (PyExn "TypeError" "list indices must be integers or slices, not str")
  | VStr _ =>
      Raise (PyExn "TypeError" "string indices must be integers, not 'str'")
  | _ => Raise (not_subscriptable v)
  end.

(** The bytes that continue a character of the encoding. *)
Fixpoint continuation (s : string) : string :=
  match s with
  | String c s' =>
      if ((128 <=? nat_of_ascii c) && (nat_of_ascii c <=? 191))%nat
      then String c (continuation s') else EmptyString
  | EmptyString => EmptyString
  end.

(** [v[0]]: the first element of a list, the first character of a
    string. *)
Definition subscript_first (v : value) : outcome value :=
  match v with
  | VList (x :: _) => Return x
  | VList [] => Raise (PyExn "IndexError" "list index out of range")
  | VStr (String c s) => Return (VStr (String c (continuation s)))
  | VStr EmptyString => Raise (PyExn "IndexError" "string index out of range")
  | VDict _ => Raise (PyExn "KeyError" "0")
  | _ => Raise (not_subscriptable v)
  end.

Definition content_filtered : string :=
  "I apologize, but I couldn't generate a response due to content filtering. Please try rephrasing your request.".
Definition cut_off : string :=
  "My response was cut off due to length limits. Let me try to be more concise. Could you repeat your question?".
Definition no_response : string :=
  "I'm sorry, I couldn't generate a response. Please try again.".

Definition no_attribute (v : value) (name : string) : exn :=
  PyExn "AttributeError"
    ("'" +:+ type_name v +:+ "' object has no attribute '" +:+ name +:+ "'").

(** Line 216: [api_response['choices'][0]['message']['content']]. *)
Definition response_content (api_response : value) : outcome value :=
  obind (subscript_key api_response "choices") (λ choices,
  obind (subscript_first choices) (λ choice,
  obind (subscript_key choice "message") (λ message,
  subscript_key message "content"))).

(** Lines 219-225: the reply for a content that is missing or blank. *)
Definition blank_content_reply (api_response : value) : outcome string :=
  obind (subscript_key api_response "choices") (λ choices,
  obind (subscript_first choices) (λ choice,
  match choice with
  | VDict fields =>
      let finish_reason :=
        dict_get_default "finish_reason" (VStr "") (dict_of fields) in
      if OAuth2.value_is_str "content_filter" finish_reason
      then Return content_filtered
      else if OAuth2.value_is_str "length" finish_reason
      then Return cut_off
      else Return no_response
  | _ => Raise (no_attribute choice "get")
  end)).

(** The body of the [try] of [get_response_content]. A content that is
    neither [None] nor a string has no [strip]. *)
Definition read_content (api_response : value) : outcome string :=
  obind (response_content api_response) (λ content,
  match content with
  | VNone => blank_content_reply api_response
  | VStr s =>
      if String.eqb (strip s) "" then blank_content_reply api_response
      else Return s
  | _ => Raise (no_attribute content "strip")
  end).

(** [except (KeyError, IndexError, TypeError)] *)
Definition subscript_error (e : exn) : bool :=
  String.eqb (exn_class e) "KeyError" || String.eqb (exn_class e) "IndexError"
  || String.eqb (exn_class e) "TypeError".

Definition extraction_failed (e : exn) : exn :=
  PyExn "Exception"
    ("Failed to extract content from API response: " +:+ exn_msg e).

(** [AzureOpenAIClient.get_response_content]. The three subscript
    errors are caught and raised again as [Exception] with the text of
    the error; any other exception passes. *)
Definition get_response_content (api_response : value) : outcome string :=
  match read_content api_response with
  | Return content => Return content
  | Raise e => if subscript_error e then Raise (extraction_failed e) else Raise e
  end.

Record AIService := {
  enabled : bool;
  init_error : option string;
  conversation_history : list (string * string)
}.

Definition newline : string := String "010"%char EmptyString.

Section service.

(** [AzureOpenAIClient.chat_completion] on the message list: the parsed
    JSON of the reply, or the exception of a failed call. *)
Variable chat_completion : list (string * string) → outcome value.
(** [AIService._format_context] *)
Variable _format_context : gmap string value → string.
(** The text [_initialize_system_prompt] installs. *)
Variable system_prompt : string.

(** [AIService._get_fallback_response] *)
Definition _get_fallback_response (self : AIService) (user_message : string)
  : string :=
  let error_detail :=
    match init_error self with
    | Some e => if String.eqb e "" then "" else " Error: " +:+ e
    | None => ""
    end in
  "I'm currently running in basic mode. "
  +:+ "For AI-powered responses, please configure your Azure OpenAI credentials. "
  +:+ "I can still help you with basic travel planning!" +:+ error_detail.

Definition with_history (self : AIService) (h : list (string * string))
  : AIService :=
  {| enabled := enabled self; init_error := init_error self;
     conversation_history := h |}.

(** [h[-n:]] *)
Definition last_n {A} (n : nat) (l : list A) : list A :=
  drop (List.length l - n)%nat l.

(** Lines 148-151: the message with the context appended, when there
    is one. *)
Definition enhanced_message (user_message : string)
  (context : gmap string value) : string :=
  if (size context =? 0)%nat then user_message
  else user_message +:+ newline +:+ newline +:+ "Context: "
       +:+ _format_context context.

(** Lines 174-179: the first message and the last 19, once there are
    more than 20. *)
Definition limit_history (h : list (string * string)) : list (string * string) :=
  if (20 <? List.length h)%nat then (take 1 h ++ last_n 19 h)%list else h.

(** What the model answers to the history with the message added. *)
Definition model_reply (self : AIService) (user_message : string)
  (context : gmap string value) : outcome string :=
  obind (chat_completion
           (conversation_history self
            ++ [("user", enhanced_message user_message context)])%list)
        get_response_content.

(** [AIService.get_ai_response]: the reply and the service afterwards. *)
Definition get_ai_response (self : AIService) (user_message : string)
  (context : gmap string value) : string * AIService :=
  if negb (enabled self) then (_get_fallback_response self user_message, self)
  else
    let history1 : list (string * string) :=
      (conversation_history self
       ++ [("user", enhanced_message user_message context)])%list in
    match model_reply self user_message context with
    | Raise _ =>
        (_get_fallback_response self user_message, with_history self history1)
    | Return ai_message =>
        (ai_message,
         with_history self
           (limit_history (history1 ++ [("assistant", ai_message)])%list))
    end.

(** [AIService.reset_conversation] *)
Definition reset_conversation (self : AIService) : AIService :=
  with_history self (if enabled self then [("system", system_prompt)] else []).

Lemma limit_history_length h : (List.length (limit_history h) ≤ 20)%nat.
Proof.
  unfold limit_history, last_n.
  destruct (20 <? List.length h)%nat eqn:E.
  - apply Nat.ltb_lt in E.
    rewrite length_app, length_take, length_drop. lia.
  - apply Nat.ltb_ge in E. done.
Qed.

Lemma limit_history_head h : head (limit_history h) = head h.
Proof.
  unfold limit_history. destruct (20 <? List.length h)%nat; [|done].
  by destruct h.
Qed.

Lemma limit_history_last h : last (limit_history h) = last h.
Proof.
  unfold limit_history, last_n.
  destruct (20 <? List.length h)%nat eqn:E; [|done].
  apply Nat.ltb_lt in E.
  rewrite last_app.
  assert (last (drop (List.length h - 19) h) = last h) as ->.
  { rewrite !last_lookup, length_drop, lookup_drop. f_equal. lia. }
  destruct (last h) eqn:El; [done|].
  apply last_None in El. subst h. cbn in E. lia.
Qed.

(** X16. The conversation history of the AI service stays bounded and
    keeps its first message. For an enabled service: when the model
    replies, the reply is returned, the history has at most 20
    messages, begins with the message it began with (the system prompt)
    and ends with the reply; when the call or the reading of its
    response raises, the fallback text is returned and the history has
    gained the user's message alone. *)
Theorem get_ai_response_history self user_message context first :
  enabled self = true →
  head (conversation_history self) = Some first →
  match model_reply self user_message context with
  | Return ai_message =>
      (get_ai_response self user_message context).1 = ai_message ∧
      (List.length (conversation_history
                      (get_ai_response self user_message context).2) ≤ 20)%nat ∧
      head (conversation_history (get_ai_response self user_message context).2)
      = Some first ∧
      last (conversation_history (get_ai_response self user_message context).2)
      = Some ("assistant", ai_message)
  | Raise _ =>
      (get_ai_response self user_message context).1
      = _get_fallback_response self user_message ∧
      conversation_history (get_ai_response self user_message context).2
      = (conversation_history self
         ++ [("user", enhanced_message user_message context)])%list
  end.
Proof.
  intros Hen Hfirst. unfold get_ai_response. rewrite Hen. cbn [negb].
  destruct (model_reply self user_message context) as [ai_message|e];
    cbn [fst snd conversation_history with_history]; [|done].
  split; [done|]. split; [apply limit_history_length|].
  rewrite limit_history_head, limit_history_last, last_snoc.
  split; [|done].
  destruct (conversation_history self); [done|]. exact Hfirst.
Qed.

End service.

(** X17. A reply read from a model response is never blank. Whatever
    the response, [get_response_content] either raises or returns a
    text with something other than whitespace in it: the content
    itself, or one of three fixed explanations when the content is
    missing or blank. *)
Theorem response_content_never_blank api_response reply :
  get_response_content api_response = Return reply → strip reply ≠ "".
Proof.
  unfold get_response_content.
  destruct (read_content api_response) as [content|e] eqn:Hread;
    [|by destruct (subscript_error e)].
  intros [= ->]. revert Hread. unfold read_content.
  assert (∀ r, blank_content_reply api_response = Return r → strip r ≠ "")
    as Hblank.
  { unfold blank_content_reply. intros r.
    destruct (subscript_key api_response _) as [choices|]; cbn [obind];
      [|discriminate].
    destruct (subscript_first choices) as [choice|]; cbn [obind];
      [|discriminate].
    destruct choice; try discriminate.
    repeat destruct (OAuth2.value_is_str _ _);
      intros [= <-]; vm_compute; discriminate. }
  destruct (response_content api_response) as [content|e]; cbn [obind];
    [|discriminate].
  destruct content as [| | |s| |]; try discriminate; auto.
  destruct (String.eqb (strip s) "") eqn:E; [auto|].
  intros [= <-]. by apply String.eqb_neq.
Qed.

Definition chat_response (content : value) (finish_reason : string) : value :=
  VDict [("choices",
          VList [VDict [("message", VDict [("role", VStr "assistant");
                                           ("content", content)]);
                        ("finish_reason", VStr finish_reason)]])].

Example blank_content_filtered :
  get_response_content (chat_response (VStr "  ") "content_filter")
  = Return content_filtered.
Proof. vm_compute. reflexivity. Qed.

(** A content of no-break and em spaces is blank. *)
Example blank_content_unicode :
  get_response_content (chat_response (VStr (nbsp +:+ " " +:+ em_space)) "length")
  = Return cut_off.
Proof. vm_compute. reflexivity. Qed.

Example no_choices : get_response_content (VDict [("choices", VList [])])
  = Raise (PyExn "Exception"
             "Failed to extract content from API response: list index out of range").
Proof. vm_compute. reflexivity. Qed.

Example no_content :
  get_response_content
    (VDict [("choices", VList [VDict [("message", VDict [])]])])
  = Raise (PyExn "Exception"
             "Failed to extract content from API response: 'content'").
Proof. vm_compute. reflexivity. Qed.

Example numeric_content :
  get_response_content (chat_response (VInt 42) "stop")
  = Raise (PyExn "AttributeError" "'int' object has no attribute 'strip'").
Proof. vm_compute. reflexivity. Qed.

Lemma response_content_never_blank_witness :
  strip "Paris is lovely in spring." ≠ "".
Proof.
  apply (response_content_never_blank
           (chat_response (VStr "Paris is lovely in spring.") "stop")).
  reflexivity.
Defined.

(** A service whose model always answers [Bonjour]. *)
Definition bonjour_chat (messages : list (string * string)) : outcome value :=
  Return (chat_response (VStr "Bonjour") "stop").

Definition plain_format (context : gmap string value) : string :=
  "destination: Paris".

Definition ready_service : AIService :=
  {| enabled := true; init_error := None;
     conversation_history := [("system", "You are a travel agent.")] |}.

Lemma get_ai_response_history_witness :
  match model_reply bonjour_chat plain_format ready_service "hello" ∅ with
  | Return ai_message =>
      (get_ai_response bonjour_chat plain_format ready_service "hello" ∅).1
      = ai_message ∧
      (List.length
         (conversation_history
            (get_ai_response bonjour_chat plain_format ready_service "hello" ∅).2)
       ≤ 20)%nat ∧
      head (conversation_history
              (get_ai_response bonjour_chat plain_format ready_service "hello" ∅).2)
      = Some ("system", "You are a travel agent.") ∧
      last (conversation_history
              (get_ai_response bonjour_chat plain_format ready_service "hello" ∅).2)
      = Some ("assistant", ai_message)
  | Raise _ =>
      (get_ai_response bonjour_chat plain_format ready_service "hello" ∅).1
      = _get_fallback_response ready_service "hello" ∧
      conversation_history
        (get_ai_response bonjour_chat plain_format ready_service "hello" ∅).2
      = (conversation_history ready_service
         ++ [("user", enhanced_message plain_format "hello" ∅)])%list
  end.
Proof.
  apply (get_ai_response_history bonjour_chat plain_format ready_service
           "hello" ∅ ("system", "You are a travel agent.")); reflexivity.
Defined.

End AIService.


(** ** agent/travel_agent.py *)

Module Agent.

Import ConversationHandler.

(** What the executor's agent carries besides [user_context]: the
    [ai_enabled] flag, copied from the service when the agent is built,
    and the AI service. *)
Record AgentState := {
  ai_enabled : bool;
  ai_service : AIService.AIService
}.

Definition where_to_travel : string :=
  "I'd love to help you with recommendations! Where are you planning to travel?".
Definition which_destination : string :=
  "I can help with travel support! Which destination do you need information about?".
Definition budget_needs_basics : string :=
  "To calculate your trip budget, I need some basic information. ".

Section agent.

(** [str.lower], [int] on matched digits, the searches of
    [extract_context] and the table of questions. *)
Variable str_lower : string → string.
Variable int_of_digits : string → outcome Z.
Variable origin_match : string → option string.
Variable budget_match : string → option value.
Variable days_match : string → option string.
Variable weeks_match : string → option string.
Variable nights_match : string → option string.
Variable travelers_match : string → option string.
Variable questions : gmap string string.

(** The AI service's collaborators. *)
Variable chat_completion : list (string * string) → outcome value.
Variable _format_context : gmap string value → string.
Variable system_prompt : string.

(** The services behind the handlers, each with the formatting of its
    result: [travel_planner.generate_recommendations],
    [travel_planner.get_destination_recommendations],
    [itinerary_manager.create_itinerary],
    [budget_calculator.calculate_total_cost] and
    [travel_planner.get_travel_support_info], from the context (the
    last from the destination); and the fixed text of
    [provide_booking_guidance]. *)
Variable generate_recommendations : gmap string value → outcome string.
Variable get_destination_recommendations : gmap string value → outcome string.
Variable create_itinerary : gmap string value → outcome string.
Variable calculate_total_cost : gmap string value → outcome string.
Variable get_travel_support_info : value → outcome string.
Variable booking_guidance : string.

Local Abbreviation parse_intent := (ConversationHandler.parse_intent str_lower).
Local Abbreviation extract_context :=
  (ConversationHandler.extract_context str_lower int_of_digits origin_match
     budget_match days_match weeks_match nights_match travelers_match).
Local Abbreviation ask_for_information :=
  (ConversationHandler.ask_for_information questions).
Local Abbreviation ask_clarifying_question :=
  (ConversationHandler.ask_clarifying_question questions).
Local Abbreviation get_ai_response :=
  (AIService.get_ai_response chat_completion _format_context).
Local Abbreviation agent := (Executor.TravelAgent AgentState).

(** [TravelAgent._has_minimum_trip_info] *)
Definition _has_minimum_trip_info (user_context : gmap string value) : bool :=
  bool_decide (is_Some (user_context !! "destination"))
  && bool_decide (is_Some (user_context !! "duration")).

(** [TravelAgent._handle_trip_planning] *)
Definition _handle_trip_planning (user_context : gmap string value)
  : outcome string :=
  match check_missing_information user_context get_required_information with
  | field :: _ => Return (ask_for_information field)
  | [] => generate_recommendations user_context
  end.

(** [TravelAgent._handle_recommendations] *)
Definition _handle_recommendations (user_context : gmap string value)
  : outcome string :=
  if negb (truthy (dict_get "destination" user_context))
  then Return where_to_travel
  else get_destination_recommendations user_context.

(** [TravelAgent._handle_itinerary_creation] *)
Definition _handle_itinerary_creation (user_context : gmap string value)
  : outcome string :=
  if negb (_has_minimum_trip_info user_context)
  then Return (ask_clarifying_question user_context)
  else create_itinerary user_context.

(** [TravelAgent._handle_budget_calculation] *)
Definition _handle_budget_calculation (user_context : gmap string value)
  : outcome string :=
  if negb (_has_minimum_trip_info user_context)
  then Return (budget_needs_basics +:+ ask_clarifying_question user_context)
  else calculate_total_cost user_context.

(** [TravelAgent._handle_booking_assistance] *)
Definition _handle_booking_assistance (user_context : gmap string value)
  : outcome string := Return booking_guidance.

(** [TravelAgent._handle_travel_support] *)
Definition _handle_travel_support (user_context : gmap string value)
  : outcome string :=
  let destination := dict_get "destination" user_context in
  if negb (truthy destination) then Return which_destination
  else get_travel_support_info destination.

(** The reply of [_process_rule_based] once the context is updated. *)
Definition handle_intent (intent : string) (user_context : gmap string value)
  : outcome string :=
  if String.eqb intent "plan_trip" then _handle_trip_planning user_context
  else if String.eqb intent "get_recommendations"
  then _handle_recommendations user_context
  else if String.eqb intent "create_itinerary"
  then _handle_itinerary_creation user_context
  else if String.eqb intent "calculate_budget"
  then _handle_budget_calculation user_context
  else if String.eqb intent "booking_assistance"
  then _handle_booking_assistance user_context
  else if String.eqb intent "travel_support"
  then _handle_travel_support user_context
  else Return (ask_clarifying_question user_context).

(** [TravelAgent._process_rule_based]. When [extract_context] raises,
    [user_context] is not assigned. *)
Definition _process_rule_based (user_message : string) (self : agent)
  : outcome string * agent :=
  let intent := parse_intent user_message in
  match extract_context user_message (Executor.agent_user_context _ self) with
  | Raise e => (Raise e, self)
  | Return user_context =>
      (handle_intent intent user_context,
       {| Executor.agent_user_context := user_context;
          Executor.agent_internal := Executor.agent_internal _ self |})
  end.

(** [TravelAgent._process_with_ai]. [extract_context] is called outside
    the [try] of [get_ai_response]. *)
Definition _process_with_ai (user_message : string) (self : agent)
  : outcome string * agent :=
  match extract_context user_message (Executor.agent_user_context _ self) with
  | Raise e => (Raise e, self)
  | Return user_context =>
      let '(reply, service) :=
        get_ai_response (ai_service (Executor.agent_internal _ self))
          user_message user_context in
      (Return reply,
       {| Executor.agent_user_context := user_context;
          Executor.agent_internal :=
            {| ai_enabled := ai_enabled (Executor.agent_internal _ self);
               ai_service := service |} |})
  end.

(** [TravelAgent.process_message] *)
Definition process_message (user_message : string) (self : agent)
  : outcome string * agent :=
  if ai_enabled (Executor.agent_internal _ self)
  then _process_with_ai user_message self
  else _process_rule_based user_message self.

(** The agent's part of [TravelAgent.reset_conversation] besides
    [user_context]: the handler's reset leaves nothing the replies
    depend on, the service's clears its history. *)
Definition reset_state (st : AgentState) : AgentState :=
  {| ai_enabled := ai_enabled st;
     ai_service := AIService.reset_conversation system_prompt (ai_service st) |}.

(** The two parameters of the executor's model, for this agent. *)
Definition extract (user_message : string) : outcome (gmap string value) :=
  extract_context user_message ∅.

Definition respond (user_message : string) (user_context : gmap string value)
  (st : AgentState) : outcome string * AgentState :=
  if ai_enabled st then
    let '(reply, service) :=
      get_ai_response (ai_service st) user_message user_context in
    (Return reply, {| ai_enabled := ai_enabled st; ai_service := service |})
  else (handle_intent (parse_intent user_message) user_context, st).

Local Abbreviation execute := (Executor.execute AgentState extract respond).
Local Abbreviation run :=
  (ExecutorFacts.run AgentState extract respond reset_state).
Local Abbreviation executor := (Executor.TravelAgentExecutor AgentState).

(** The agent is an instance of the executor's model: what
    [TravelAgent.process_message] returns and leaves in the agent, in
    either mode, is what the executor's [process_message] does with the
    attributes of the message ([extract]) laid over the current context
    and the reply ([respond]) computed from the merged context. *)
Lemma process_message_executor_model user_message (self : agent) :
  process_message user_message self
  = Executor.process_message AgentState extract respond user_message self.
Proof.
  unfold process_message, Executor.process_message, Executor.extract_context.
  unfold extract, respond, _process_with_ai, _process_rule_based.
  cbv zeta. rewrite <- extract_context_union.
  destruct (extract_context _ _) as [user_context|e];
    [|by destruct (ai_enabled _)].
  destruct (ai_enabled _); [|done]. by destruct (get_ai_response _ _ _).
Qed.

(** *** Rule-based replies *)

(** The reply to each intent while no destination is known; only the
    table of questions and the booking text enter it. *)
Definition asks_without_destination (intent : string) : string :=
  if String.eqb intent "get_recommendations" then where_to_travel
  else if String.eqb intent "calculate_budget"
  then budget_needs_basics +:+ ask_for_information "destination"
  else if String.eqb intent "booking_assistance" then booking_guidance
  else if String.eqb intent "travel_support" then which_destination
  else ask_for_information "destination".

Lemma ask_clarifying_destination user_context :
  user_context !! "destination" = None →
  ask_clarifying_question user_context = ask_for_information "destination".
Proof.
  intros Hd. unfold ConversationHandler.ask_clarifying_question.
  by destruct (check_missing_destination user_context
                 get_required_information Hd) as [rest ->].
Qed.

Lemma handle_intent_without_destination intent user_context :
  user_context !! "destination" = None →
  handle_intent intent user_context
  = Return (asks_without_destination intent).
Proof.
  intros Hd. unfold handle_intent, asks_without_destination.
  unfold _handle_trip_planning, _handle_recommendations,
    _handle_itinerary_creation, _handle_budget_calculation,
    _handle_booking_assistance, _handle_travel_support,
    _has_minimum_trip_info, dict_get.
  destruct (check_missing_destination user_context
              get_required_information Hd) as [rest ->].
  rewrite Hd, ask_clarifying_destination by done.
  rewrite (bool_decide_eq_false_2 (is_Some None)) by by intros [? ?].
  cbn [andb negb truthy default from_option id].
  repeat match goal with
         | |- context [String.eqb intent ?s] =>
             destruct (String.eqb_spec intent s) as [->|?]; [reflexivity|]
         end.
  done.
Qed.

(** X19. Without a destination no service is consulted. In rule-based
    mode, when [extract_context] returns and neither the message nor
    the context so far names a destination, the reply is a fixed text
    chosen by the intent alone: the planner, the itinerary manager and
    the budget calculator are not called, whatever they would return or
    raise, and the context kept is the extracted one. When
    [extract_context] raises, its exception is the outcome and the
    agent is as it was. *)
Theorem no_destination_no_service user_message (self : agent) :
  ai_enabled (Executor.agent_internal _ self) = false →
  match extract_context user_message (Executor.agent_user_context _ self) with
  | Return user_context =>
      user_context !! "destination" = None →
      process_message user_message self
      = (Return (asks_without_destination (parse_intent user_message)),
         {| Executor.agent_user_context := user_context;
            Executor.agent_internal := Executor.agent_internal _ self |})
  | Raise e => process_message user_message self = (Raise e, self)
  end.
Proof.
  intros Hai. unfold process_message, _process_rule_based.
  rewrite Hai. cbv zeta.
  destruct (extract_context _ _) as [user_context|e]; [|done].
  intros Hd. by rewrite handle_intent_without_destination.
Qed.

(** *** The agent behind the executor *)

Lemma extract_lacks_travel_dates m found :
  extract m = Return found → found !! "travel_dates" = None.
Proof.
  intros Hm. unfold extract in Hm.
  rewrite (extract_context_other_key _ _ _ _ _ _ _ _ _ _ _ _ Hm); [done|].
  unfold attribute_names. rewrite !elem_of_cons, elem_of_nil.
  intros H. repeat (destruct H as [H|H]; [discriminate|]). done.
Qed.

Lemma respond_ai_enabled m ctx st :
  ai_enabled (respond m ctx st).2 = ai_enabled st.
Proof.
  unfold respond. destruct (ai_enabled st) eqn:E; [|done].
  by destruct (get_ai_response _ _ _).
Qed.

Lemma trip_planning_asks user_context :
  user_context !! "travel_dates" = None →
  ∃ field, field ∈ get_required_information ∧
           user_context !! field = None ∧
           _handle_trip_planning user_context
           = Return (ask_for_information field).
Proof.
  intros Hd. unfold _handle_trip_planning.
  destruct (check_missing_information _ _) as [|field rest] eqn:E.
  - pose proof (proj1 (check_missing_nil user_context) E) as Hall.
    destruct (Hall "travel_dates") as [v Hv]; [|congruence].
    unfold get_required_information. rewrite !elem_of_cons. tauto.
  - exists field.
    assert (field ∈ check_missing_information user_context
                      get_required_information) as Hin by (rewrite E; left).
    unfold check_missing_information in Hin.
    destruct (List.filter _ essential) eqn:Ee.
    + apply filter_missing_elem in Hin as [? ?]. done.
    + rewrite <- Ee in Hin. apply filter_missing_elem in Hin as [Hin ?].
      split; [|done]. unfold essential in Hin.
      rewrite !elem_of_cons, elem_of_nil in Hin.
      unfold get_required_information. rewrite !elem_of_cons. tauto.
Qed.

(** X20. Trip planning never reaches the planner. Nothing assigns
    [travel_dates], which [get_required_information] requires: from a
    new rule-based executor, after any run of requests, cancellations
    and resets, a message that carries a context id and whose intent
    is [plan_trip] is answered, with status completed, by the question
    for a required field, or, when [extract_context] raises on it,
    with status failed and the text of that exception;
    [generate_recommendations] is not called. *)
Theorem trip_planning_always_asks st calls uuid context :
  ai_enabled st = false →
  is_Some (Executor.context_id context) →
  Executor._extract_message_text (Executor.message context) ≠ "" →
  parse_intent (Executor._extract_message_text (Executor.message context))
  = "plan_trip" →
  match extract (Executor._extract_message_text (Executor.message context)) with
  | Return _ =>
      ∃ field,
        field ∈ get_required_information ∧
        (execute uuid context
           (run calls (Executor.create_executor _ st, [])).1
           (run calls (Executor.create_executor _ st, [])).2).2
        = ((run calls (Executor.create_executor _ st, [])).2
           ++ [ExecutorFacts.working_event;
               {| Executor.state := Executor.completed;
                  Executor.message_text := ask_for_information field |}])%list
  | Raise e =>
      (execute uuid context
         (run calls (Executor.create_executor _ st, [])).1
         (run calls (Executor.create_executor _ st, [])).2).2
      = ((run calls (Executor.create_executor _ st, [])).2
         ++ [ExecutorFacts.working_event;
             {| Executor.state := Executor.failed;
                Executor.message_text :=
                  "I encountered an error processing your request: "
                  +:+ exn_msg e |}])%list
  end.
Proof.
  intros Hai Hid Htext Hintent.
  set (σ := run calls (Executor.create_executor _ st, [])).
  assert (ExecutorFacts.lacks AgentState "travel_dates" σ.1) as [Hagent Hstored].
  { apply ExecutorFacts.run_lacks; [apply extract_lacks_travel_dates|].
    by split. }
  assert (ai_enabled (Executor.agent_internal _ (Executor.travel_agent _ σ.1))
          = false) as Hmode.
  { apply (ExecutorFacts.run_agent_state AgentState extract respond
             reset_state (λ st, ai_enabled st = false)); [| |done].
    - intros m ctx st' H. by rewrite respond_ai_enabled.
    - done. }
  rewrite ExecutorFacts.execute_spec. cbv zeta.
  rewrite bool_decide_eq_false_2 by (destruct Hid; congruence).
  apply String.eqb_neq in Htext. rewrite Htext.
  set (key := Executor.resolved_id uuid (Executor.context_id context)).
  set (c := default (Executor.fresh_context key)
                    (Executor._contexts _ σ.1 !! key)).
  assert (Executor.user_context c !! "travel_dates" = None) as Hc.
  { subst c. destruct (Executor._contexts _ σ.1 !! key) eqn:E;
      [by eapply Hstored|done]. }
  pose proof (ExecutorFacts.restore_lacks AgentState "travel_dates" c _
                Hc Hagent) as Hrestored.
  unfold Executor.process_message, Executor.extract_context.
  destruct (extract _) as [found|e] eqn:Hfound; cbn [obind]; [|done].
  unfold respond at 1.
  rewrite Executor.restore_internal, Hmode, Hintent.
  unfold handle_intent. cbn [String.eqb Ascii.eqb Bool.eqb andb].
  edestruct (trip_planning_asks
               (found
                ∪ Executor.agent_user_context _
                    (Executor.restore_user_context _ c
                       (Executor.travel_agent _ σ.1))))
    as (field & Hin & _ & ->).
  { apply lookup_union_None. split; [|done].
    by apply (extract_lacks_travel_dates
                (Executor._extract_message_text (Executor.message context))). }
  exists field. done.
Qed.

(** X21. In AI mode a request fails only in extraction. When the agent
    runs with the AI service and the request carries a context id, the
    request ends with status completed, whatever the executor holds and
    whatever the model call returns or raises, unless
    [extract_context], which is called outside the service's [try],
    raises on the message: then it ends with status failed and the
    text of that exception. When every model call raises and
    extraction returns, the reply to a non-empty message is the
    fallback text. *)
Theorem ai_mode_fails_only_in_extraction uuid context (self : executor) q :
  ai_enabled (Executor.agent_internal _ (Executor.travel_agent _ self))
  = true →
  is_Some (Executor.context_id context) →
  (Executor._extract_message_text (Executor.message context) = "" ∨
   (∃ found,
      extract (Executor._extract_message_text (Executor.message context))
      = Return found) →
   ∃ reply,
     (execute uuid context self q).2
     = (q ++ [ExecutorFacts.working_event;
              {| Executor.state := Executor.completed;
                 Executor.message_text := reply |}])%list) ∧
  (∀ e,
     Executor._extract_message_text (Executor.message context) ≠ "" →
     extract (Executor._extract_message_text (Executor.message context))
     = Raise e →
     (execute uuid context self q).2
     = (q ++ [ExecutorFacts.working_event;
              {| Executor.state := Executor.failed;
                 Executor.message_text :=
                   "I encountered an error processing your request: "
                   +:+ exn_msg e |}])%list) ∧
  ((∀ messages, ∃ e, chat_completion messages = Raise e) →
   Executor._extract_message_text (Executor.message context) ≠ "" →
   (∃ found,
      extract (Executor._extract_message_text (Executor.message context))
      = Return found) →
   (execute uuid context self q).2
   = (q ++ [ExecutorFacts.working_event;
            {| Executor.state := Executor.completed;
               Executor.message_text :=
                 AIService._get_fallback_response
                   (ai_service (Executor.agent_internal _
                                  (Executor.travel_agent _ self)))
                   (Executor._extract_message_text (Executor.message context)) |}])%list).
Proof.
  intros Hai Hid. rewrite ExecutorFacts.execute_spec. cbv zeta.
  rewrite bool_decide_eq_false_2 by (destruct Hid; congruence).
  set (key := Executor.resolved_id uuid (Executor.context_id context)).
  set (c := default (Executor.fresh_context key)
                    (Executor._contexts _ self !! key)).
  unfold Executor.process_message, Executor.extract_context.
  unfold respond.
  rewrite Executor.restore_internal, Hai.
  split; [|split].
  - intros [Hempty|[found Hfound]].
    + rewrite Hempty. cbn [String.eqb]. by eexists.
    + destruct (String.eqb _ _); [by eexists|].
      rewrite Hfound. cbn [obind].
      destruct (get_ai_response _ _ _) as [reply service]. by eexists.
  - intros e Htext Hraise. apply String.eqb_neq in Htext.
    rewrite Htext, Hraise. done.
  - intros Hraise Htext [found Hfound]. apply String.eqb_neq in Htext.
    rewrite Htext, Hfound. cbn [obind].
    unfold AIService.get_ai_response, AIService.model_reply.
    destruct (negb _); [done|].
    destruct (Hraise (AIService.conversation_history
                 (ai_service (Executor.agent_internal _
                    (Executor.travel_agent _ self)))
               ++ [("user",
                    AIService.enhanced_message _format_context
                      (Executor._extract_message_text (Executor.message context))
                      (found
                       ∪ Executor.agent_user_context _
                           (Executor.restore_user_context _ c
                              (Executor.travel_agent _ self))))])%list)
      as [e ->].
    done.
Qed.

End agent.

(** *** An agent whose services and model are all down *)

Definition unavailable (user_context : gmap string value) : outcome string :=
  Raise (PyExn "RuntimeError" "service unavailable").

Definition no_support (destination : value) : outcome string :=
  Raise (PyExn "RuntimeError" "service unavailable").

Definition failing_chat (messages : list (string * string)) : outcome value :=
  Raise (PyExn "APIError" "request timed out").

Definition basic_state : AgentState :=
  {| ai_enabled := false;
     ai_service := {| AIService.enabled := false;
                      AIService.init_error := Some "no credentials";
                      AIService.conversation_history := [] |} |}.

Definition ai_state : AgentState :=
  {| ai_enabled := true; ai_service := AIService.ready_service |}.

Definition demo_process_message :=
  process_message ascii_lower ascii_int no_text_match no_value_match
    days_first no_text_match no_text_match no_text_match ∅ failing_chat
    AIService.plain_format unavailable unavailable unavailable unavailable
    no_support "Which booking do you need?".

Definition demo_extract :=
  extract ascii_lower ascii_int no_text_match no_value_match days_first
    no_text_match no_text_match no_text_match.

Definition demo_respond :=
  respond ascii_lower ∅ failing_chat AIService.plain_format unavailable
    unavailable unavailable unavailable no_support "Which booking do you need?".

Definition demo_reset_state := reset_state "You are a travel agent.".

Definition demo_execute := Executor.execute AgentState demo_extract demo_respond.

Definition demo_run :=
  ExecutorFacts.run AgentState demo_extract demo_respond demo_reset_state.

(** Two sessions and a reset before the request at hand. *)
Definition earlier_calls : list ExecutorFacts.call :=
  [ExecutorFacts.Execute "u1"
     (Executor.request (Some "s1") "A hotel in Paris within my budget");
   ExecutorFacts.ClearContext "s1";
   ExecutorFacts.Execute "u2" (Executor.request (Some "s2") "Now Tokyo by train")].

Example services_down_with_destination :
  (demo_process_message "Recommend something in Paris"
     {| Executor.agent_user_context := ∅;
        Executor.agent_internal := basic_state |}).1
  = Raise (PyExn "RuntimeError" "service unavailable").
Proof. vm_compute. reflexivity. Qed.

(** A duration of 4301 digits: the request fails, in either mode. *)
Example long_duration_fails st :
  (demo_execute "u1" (Executor.request (Some "s1") long_duration)
     (Executor.create_executor _ st) []).2
  = [ExecutorFacts.working_event;
     {| Executor.state := Executor.failed;
        Executor.message_text :=
          "I encountered an error processing your request: "
          +:+ exn_msg digit_limit |}].
Proof.
  unfold demo_execute. rewrite ExecutorFacts.execute_spec. cbv zeta.
  rewrite bool_decide_eq_false_2 by done.
  assert (Executor._extract_message_text
            (Executor.message (Executor.request (Some "s1") long_duration))
          = long_duration) as -> by (vm_compute; reflexivity).
  assert (String.eqb long_duration "" = false) as -> by (vm_compute; reflexivity).
  unfold Executor.process_message, Executor.extract_context, demo_extract, extract.
  change (ConversationHandler.extract_context ascii_lower ascii_int
            no_text_match no_value_match days_first no_text_match
            no_text_match no_text_match long_duration ∅)
    with (demo_extract_context long_duration ∅).
  rewrite extract_long_duration. reflexivity.
Qed.

Lemma no_destination_no_service_witness :
  (demo_process_message "Can you recommend something?"
     {| Executor.agent_user_context := ∅;
        Executor.agent_internal := basic_state |}).1
  = Return where_to_travel.
Proof.
  refine (_ (no_destination_no_service ascii_lower ascii_int no_text_match
               no_value_match days_first no_text_match no_text_match
               no_text_match ∅ failing_chat AIService.plain_format
               unavailable unavailable unavailable unavailable no_support
               "Which booking do you need?" "Can you recommend something?"
               {| Executor.agent_user_context := ∅;
                  Executor.agent_internal := basic_state |} _)).
  - intros H. unfold demo_process_message.
    rewrite H; vm_compute; reflexivity.
  - reflexivity.
Defined.

Lemma trip_planning_always_asks_witness :
  ∃ field,
    field ∈ get_required_information ∧
    (demo_execute "u3" (Executor.request (Some "s2") "Plan my trip")
       (demo_run earlier_calls (Executor.create_executor _ basic_state, [])).1
       (demo_run earlier_calls (Executor.create_executor _ basic_state, [])).2).2
    = ((demo_run earlier_calls (Executor.create_executor _ basic_state, [])).2
       ++ [ExecutorFacts.working_event;
           {| Executor.state := Executor.completed;
              Executor.message_text :=
                ask_for_information ∅ field |}])%list.
Proof.
  refine (_ (trip_planning_always_asks ascii_lower ascii_int no_text_match
           no_value_match days_first no_text_match no_text_match no_text_match
           ∅ failing_chat AIService.plain_format "You are a travel agent."
           unavailable unavailable unavailable unavailable no_support
           "Which booking do you need?" basic_state earlier_calls "u3"
           (Executor.request (Some "s2") "Plan my trip") _ _ _ _)).
  - intros H. exact H.
  - reflexivity.
  - by eexists.
  - vm_compute. discriminate.
  - vm_compute. reflexivity.
Defined.

Lemma ai_mode_fails_only_in_extraction_witness :
  (demo_execute "u1" (Executor.request (Some "s1") "Plan my trip to Paris")
     (Executor.create_executor _ ai_state) []).2
  = [ExecutorFacts.working_event;
     {| Executor.state := Executor.completed;
        Executor.message_text :=
          AIService._get_fallback_response AIService.ready_service
            "Plan my trip to Paris" |}].
Proof.
  refine (proj2 (proj2 (ai_mode_fails_only_in_extraction ascii_lower ascii_int
           no_text_match no_value_match days_first no_text_match no_text_match
           no_text_match ∅ failing_chat AIService.plain_format
           unavailable unavailable unavailable unavailable no_support
           "Which booking do you need?" "u1"
           (Executor.request (Some "s1") "Plan my trip to Paris")
           (Executor.create_executor _ ai_state) [] _ _)) _ _ _).
  - reflexivity.
  - by eexists.
  - intros messages. by eexists.
  - vm_compute. discriminate.
  - eexists. vm_compute. reflexivity.
Defined.

End Agent.

From Stdlib Require Import DecimalString.

(** ** a2a_protocol/dynamic_host.py and app.py *)

Module DynamicHost.

(** [a or b] where [a] is a header or environment value that may be
    missing or empty, and [b] a string. *)
Definition or_else (a : option string) (b : string) : string :=
  match a with
  | Some s => if String.eqb s "" then b else s
  | None => b
  end.

(** [s.split(":")[0]] *)
Fixpoint before_colon (s : string) : string :=
  match s with
  | EmptyString => EmptyString
  | String c s' =>
      if Ascii.eqb c ":"%char then EmptyString else String c (before_colon s')
  end.

(** The state of the [ServerCallContext] that [build] returns. *)
Record CallState := {
  detected_host : string;
  detected_proto : string;
  request_url : string
}.

(** [HostAwareContextBuilder.build]; [A2A_PUBLIC_HOST] is the
    environment variable, [url] is [str(request.url)]. *)
Definition build (headers : gmap string string)
  (A2A_PUBLIC_HOST : option string) (url : string) : CallState :=
  let host :=
    or_else (headers !! "x-forwarded-host")
      (or_else (headers !! "host") (or_else A2A_PUBLIC_HOST "localhost")) in
  let host := if contains ":" host then before_colon host else host in
  let proto := default "http" (headers !! "x-forwarded-proto") in
  let proto :=
    if negb (String.eqb host "localhost") && negb (String.eqb host "127.0.0.1")
    then "https" else proto in
  {| detected_host := host; detected_proto := proto; request_url := url |}.

(** The parts of [request.url] that [get_base_url_from_request] reads. *)
Record URL := {
  scheme : string;
  hostname : option string;
  port : option Z
}.

(** [f"{n}"] for an integer. *)
Definition str_of_int (n : Z) : string := NilZero.string_of_int (Z.to_int n).

(** [f"{x}"] for a string that may be [None]. *)
Definition str_of_optional (x : option string) : string := default "None" x.

(** [get_base_url_from_request] *)
Definition get_base_url_from_request (headers : gmap string string) (url : URL)
  : string :=
  let proto := default (scheme url) (headers !! "x-forwarded-proto") in
  let host := or_else (headers !! "x-forwarded-host")
                (default "" (headers !! "host")) in
  let host :=
    if String.eqb host "" then
      let host := str_of_optional (hostname url) in
      match port url with
      | Some p =>
          if negb (p =? 0)%Z && negb ((p =? 80)%Z || (p =? 443)%Z)
          then host +:+ ":" +:+ str_of_int p
          else host
      | None => host
      end
    else host in
  proto +:+ "://" +:+ host.

Definition card_paths : list string :=
  ["/.well-known/agent-card.json"; "/.well-known/agent.json"].

(** What a middleware's [dispatch] does: answer, or hand the request on. *)
Inductive handled :=
| Answer (response : OAuth2.JSONResponse)
| Next.

(** [DynamicAgentCardMiddleware.dispatch]; [agent_card_base] is the
    dump of the card the middleware was built with. *)
Definition dispatch (agent_card_base : gmap string value)
  (request : OAuth2.Request) (url : URL) : handled :=
  if bool_decide (OAuth2.path request ∈ card_paths) then
    let base_url := get_base_url_from_request (OAuth2.headers request) url in
    let card_dict := <[ "url" := VStr base_url ]> agent_card_base in
    Answer {| OAuth2.status_code := 200;
              OAuth2.content := card_dict;
              OAuth2.response_headers := ∅ |}
  else Next.

Lemma before_colon_no_colon s : contains ":" (before_colon s) = false.
Proof.
  induction s as [|c s IH]; [done|]. cbn [before_colon].
  destruct (Ascii.eqb_spec c ":"%char) as [->|Hc]; [done|].
  cbn [contains String.prefix].
  destruct (ascii_dec ":" c) as [<-|_]; [done|]. exact IH.
Qed.

Lemma before_colon_prefix s : String.prefix (before_colon s) s = true.
Proof.
  induction s as [|c s IH]; [done|]. cbn [before_colon].
  destruct (Ascii.eqb c ":"%char); [done|]. cbn [String.prefix].
  by destruct (ascii_dec c c).
Qed.

Lemma prefix_refl s : String.prefix s s = true.
Proof.
  induction s as [|c s IH]; [done|]. cbn [String.prefix].
  by destruct (ascii_dec c c).
Qed.

Lemma before_colon_split s :
  contains ":" s = true → ∃ rest, s = before_colon s +:+ ":" +:+ rest.
Proof.
  induction s as [|c s IH]; [done|]. cbn [before_colon].
  destruct (Ascii.eqb_spec c ":"%char) as [->|Hc]; [by exists s|].
  cbn [contains String.prefix].
  destruct (ascii_dec ":" c) as [<-|_]; [done|].
  intros [rest Hrest]%IH. exists rest.
  change (String c (before_colon s) +:+ ":" +:+ rest)
    with (String c (before_colon s +:+ ":" +:+ rest)).
  by rewrite <- Hrest.
Qed.

(** X22. The detected host and protocol. Whatever the headers and the
    environment, with [chosen] the first non-empty one of
    [X-Forwarded-Host], [Host], [A2A_PUBLIC_HOST] and [localhost]: the
    host [build] records contains no colon, so no port, and is
    [chosen] itself or what stands before its first colon; the
    protocol is the [X-Forwarded-Proto] header, or [http] without one,
    when that host is [localhost] or [127.0.0.1], and [https] for
    every other host, whatever the header says. *)
Theorem detected_host_has_no_port headers A2A_PUBLIC_HOST url :
  let chosen :=
    or_else (headers !! "x-forwarded-host")
      (or_else (headers !! "host") (or_else A2A_PUBLIC_HOST "localhost")) in
  let state := build headers A2A_PUBLIC_HOST url in
  contains ":" (detected_host state) = false ∧
  String.prefix (detected_host state) chosen = true ∧
  (chosen = detected_host state ∨
   ∃ rest, chosen = detected_host state +:+ ":" +:+ rest) ∧
  (detected_host state = "localhost" ∨ detected_host state = "127.0.0.1" →
   detected_proto state = default "http" (headers !! "x-forwarded-proto")) ∧
  (detected_host state ≠ "localhost" → detected_host state ≠ "127.0.0.1" →
   detected_proto state = "https").
Proof.
  unfold build. cbv zeta. cbn [detected_host detected_proto].
  set (host0 := or_else _ _).
  set (host := if contains ":" host0 then before_colon host0 else host0).
  split; [|split; [|split; [|split]]].
  - subst host. destruct (contains ":" host0) eqn:E; [|done].
    apply before_colon_no_colon.
  - subst host. destruct (contains ":" host0).
    + apply before_colon_prefix.
    + apply prefix_refl.
  - subst host. destruct (contains ":" host0) eqn:E; [|by left].
    right. by apply before_colon_split.
  - intros [->| ->]; reflexivity.
  - intros H1 H2.
    destruct (String.eqb_spec host "localhost") as [?|_]; [done|].
    by destruct (String.eqb_spec host "127.0.0.1") as [?|_].
Qed.

Example build_forwarded_host :
  build {[ "x-forwarded-host" := "agent.example.com:8443";
           "host" := "10.0.0.7:8080"; "x-forwarded-proto" := "http" ]}
        None "http://10.0.0.7:8080/"
  = {| detected_host := "agent.example.com"; detected_proto := "https";
       request_url := "http://10.0.0.7:8080/" |}.
Proof. vm_compute. reflexivity. Qed.

Example build_local_forwarded_proto :
  build {[ "host" := "localhost:9999"; "x-forwarded-proto" := "https" ]}
        (Some "agent.example.com") "http://localhost:9999/"
  = {| detected_host := "localhost"; detected_proto := "https";
       request_url := "http://localhost:9999/" |}.
Proof. vm_compute. reflexivity. Qed.

Example build_local_default :
  detected_proto (build {[ "host" := "127.0.0.1:9999" ]} None "")
  = "http".
Proof. vm_compute. reflexivity. Qed.

End DynamicHost.

(** ** app.py *)

Module App.

Import OAuth2.

(** What the application does with a request: a response from one of
    the two middlewares, or the A2A application called with the request
    state shown. *)
Inductive served :=
| Response (response : JSONResponse)
| A2A (state : State).

(** [os.getenv("OAUTH2_ENABLED", "true").lower() == "true"] *)
Definition oauth2_enabled (OAUTH2_ENABLED : option string) : bool :=
  String.eqb (Executor.lower (default "true" OAUTH2_ENABLED)) "true".

Section app.

Variable sha256_hexdigest : string → string.
Variable hmac_sha256 : string → string → string.
Variable jws_load : string → option jws.
Variable jwt_encode : gmap string value → string → string → string.
Variable b64decode_utf8 : string → option string.
Variable int_of_str : string → option Z.
Variable JWT_SECRET_KEY : string.
Variable TOKEN_EXPIRY_SECONDS : Z.

(** The dump of [create_agent_card(..., include_oauth2)]. *)
Variable create_agent_card : bool → gmap string value.

Local Abbreviation oauth2_dispatch :=
  (OAuth2.dispatch sha256_hexdigest hmac_sha256 jws_load jwt_encode
     b64decode_utf8 int_of_str JWT_SECRET_KEY TOKEN_EXPIRY_SECONDS).

(** [create_application]: the stack it returns, applied to a request.
    [OAuth2Middleware] is outermost, [DynamicAgentCardMiddleware]
    inside it, the A2A application innermost. *)
Definition create_application (require_oauth2 : bool)
  (OAUTH2_ENABLED : option string)
  (client_registry : gmap string OAuth2Client)
  (request : Request) (url : DynamicHost.URL) (now : Z) (jti : string)
  : outcome served :=
  let require_auth := require_oauth2 && oauth2_enabled OAUTH2_ENABLED in
  let agent_card := create_agent_card (oauth2_enabled OAUTH2_ENABLED) in
  obind (oauth2_dispatch require_auth client_registry request now jti)
    (λ outer,
       match outer with
       | Respond response => Return (Response response)
       | CallNext state =>
           match DynamicHost.dispatch agent_card request url with
           | DynamicHost.Answer response => Return (Response response)
           | DynamicHost.Next => Return (A2A state)
           end
       end).

(** X23. The agent card is public. A request for either card path is
    answered with status 200 by the card built for the configuration,
    its [url] replaced by the base URL of the request, whether or not
    authentication is required and whatever [Authorization] header,
    method or body the request has. *)
Theorem agent_card_is_public require_oauth2 OAUTH2_ENABLED client_registry
    request url now jti :
  path request ∈ DynamicHost.card_paths →
  create_application require_oauth2 OAUTH2_ENABLED client_registry
    request url now jti
  = Return (Response
      {| status_code := 200;
         content :=
           <[ "url" := VStr (DynamicHost.get_base_url_from_request
                               (headers request) url) ]>
             (create_agent_card (oauth2_enabled OAUTH2_ENABLED));
         response_headers := ∅ |}).
Proof.
  intros Hpath. unfold create_application, OAuth2.dispatch, DynamicHost.dispatch.
  cbv zeta. rewrite (bool_decide_eq_true_2 _ Hpath).
  unfold DynamicHost.card_paths in Hpath.
  rewrite !elem_of_cons, elem_of_nil in Hpath.
  destruct Hpath as [->|[->|[]]]; reflexivity.
Qed.

(** X24. The switch is the literal [true]. When [create_application]
    is told not to require OAuth2, or [OAUTH2_ENABLED] is set to
    anything that is not [true] up to letter case, no request other
    than one for the token endpoint is ever refused: the
    [Authorization] header is not looked at, and the request reaches
    the card middleware and the A2A application with no client
    identity. *)
Theorem authentication_switch require_oauth2 OAUTH2_ENABLED client_registry
    request url now jti :
  require_oauth2 = false ∨
  (∃ v, OAUTH2_ENABLED = Some v ∧ Executor.lower v ≠ "true") →
  path request ≠ "/oauth/token" →
  create_application require_oauth2 OAUTH2_ENABLED client_registry
    request url now jti
  = Return
      match DynamicHost.dispatch
              (create_agent_card (oauth2_enabled OAUTH2_ENABLED)) request url
      with
      | DynamicHost.Answer response => Response response
      | DynamicHost.Next => A2A no_state
      end.
Proof.
  intros Hoff Hpath. unfold create_application. cbv zeta.
  assert (require_oauth2 && oauth2_enabled OAUTH2_ENABLED = false) as ->.
  { destruct Hoff as [->|(v & -> & Hv)]; [done|].
    unfold oauth2_enabled. cbn [default from_option id].
    apply String.eqb_neq in Hv. rewrite Hv. apply andb_false_r. }
  unfold OAuth2.dispatch. apply String.eqb_neq in Hpath. rewrite Hpath.
  destruct (bool_decide _); [by destruct (DynamicHost.dispatch _ _ _)|].
  destruct (_ && _); by destruct (DynamicHost.dispatch _ _ _).
Qed.

End app.

(** *** A deployment behind a proxy *)

Definition demo_card (include_oauth2 : bool) : gmap string value :=
  {[ "name" := VStr "Travel Agent"; "url" := VStr "http://localhost:8080" ]}.

Definition demo_application :=
  create_application demo_sha256 demo_hmac demo_jws_load demo_jwt_encode
    demo_b64decode demo_int demo_key demo_ttl demo_card.

Definition local_url : DynamicHost.URL :=
  {| DynamicHost.scheme := "http"; DynamicHost.hostname := Some "10.0.0.7";
     DynamicHost.port := Some 8080 |}.

Definition card_request : Request :=
  {| method := "GET"; path := "/.well-known/agent-card.json";
     headers := {[ "x-forwarded-host" := "agent.example.com";
                   "x-forwarded-proto" := "https";
                   "authorization" := "Bearer forged" ]};
     json_body := None; form_body := [] |}.

Definition message_request : Request :=
  {| method := "POST"; path := "/"; headers := ∅;
     json_body := None; form_body := [] |}.

Example base_url_without_headers :
  DynamicHost.get_base_url_from_request ∅ local_url = "http://10.0.0.7:8080".
Proof. vm_compute. reflexivity. Qed.

Example build_strips_port :
  DynamicHost.build {[ "host" := "agent.example.com:8443";
                       "x-forwarded-proto" := "http" ]} None "/"
  = {| DynamicHost.detected_host := "agent.example.com";
       DynamicHost.detected_proto := "https";
       DynamicHost.request_url := "/" |}.
Proof. vm_compute. reflexivity. Qed.

Lemma agent_card_is_public_witness :
  demo_application true None demo_registry card_request local_url 1500 ""
  = Return (Response
      {| status_code := 200;
         content := {[ "name" := VStr "Travel Agent";
                       "url" := VStr "https://agent.example.com" ]};
         response_headers := ∅ |}).
Proof.
  refine (_ (agent_card_is_public demo_sha256 demo_hmac demo_jws_load
               demo_jwt_encode demo_b64decode demo_int demo_key demo_ttl demo_card
               true None demo_registry card_request local_url 1500 "" _)).
  - intros H. vm_compute in H |- *. exact H.
  - vm_compute. set_solver.
Defined.

Lemma authentication_switch_witness :
  demo_application true (Some "yes") demo_registry message_request local_url
    1500 ""
  = Return (A2A no_state).
Proof.
  refine (_ (authentication_switch demo_sha256 demo_hmac demo_jws_load
               demo_jwt_encode demo_b64decode demo_int demo_key demo_ttl demo_card
               true (Some "yes") demo_registry message_request local_url
               1500 "" _ _)).
  - intros H. vm_compute in H |- *. exact H.
  - right. exists "yes". split; [reflexivity|]. vm_compute. discriminate.
  - vm_compute. discriminate.
Defined.

Example authentication_required_by_default :
  ∃ r, demo_application true None demo_registry message_request local_url
         1500 ""
       = Return (Response r) ∧ status_code r = 401.
Proof. eexists. split; [vm_compute; reflexivity|reflexivity]. Qed.

End App.

